(** * Solar-system emulator: orbital updater, camera controller, speed control

    A shallow embedding of the motion core of the emulator
    (PlanetsUpdater.js, Planets.js, CameraController.js, SpeedControl.js and the
    input handlers that drive them), followed by the properties of that code.

    JavaScript numbers are embedded as real numbers: every arithmetic
    operation of the source is taken exact.  The statements below are therefore
    about the formulas the code evaluates, not about IEEE-754 rounding. *)

From Stdlib Require Import Reals Lra Psatz.
From stdpp Require Import gmap strings.

Local Open Scope R_scope.

(** Strict equality and ordering of numbers are decided as in the source
    ([!==], [<]). *)
#[global] Instance R_eq_dec : EqDecision R := Req_dec_T.
#[global] Instance R_lt_dec : RelDecision Rlt := Rlt_dec.

(** ** three.js [Vector3] *)

Module Vector3.

Record t : Type := mk { x : R; y : R; z : R }.

Definition zero : t := mk 0 0 0.

Definition add (a b : t) : t := mk (x a + x b) (y a + y b) (z a + z b).
Definition sub (a b : t) : t := mk (x a - x b) (y a - y b) (z a - z b).
Definition multiplyScalar (a : t) (s : R) : t := mk (x a * s) (y a * s) (z a * s).
Definition length (a : t) : R := sqrt (x a * x a + y a * y a + z a * z a).

(** [divideScalar(length() || 1)]: the zero vector has no direction and is
    left as it is. *)
Definition normalize (a : t) : t :=
  multiplyScalar a (1 / (if decide (length a = 0) then 1 else length a)).

(** [v.lerp(w, alpha)]: [v += (w - v) * alpha]. *)
Definition lerp (v w : t) (alpha : R) : t :=
  mk (x v + (x w - x v) * alpha)
     (y v + (y w - y v) * alpha)
     (z v + (z w - z v) * alpha).

Definition distanceTo (a b : t) : R := length (sub a b).

End Vector3.

Abbreviation Vec3 := Vector3.t.

#[global] Instance Vec3_eq_dec : EqDecision Vec3.
Proof. intros [a b c] [a' b' c']. unfold Decision. decide equality; apply Req_dec_T. Defined.

(** ** The body catalogue (types.ts) *)

(** [PlanetData]: the fields the motion core reads.  [position] is the
    catalogue position of the body; its [x] component is the orbit radius. *)
Record PlanetData : Type := {
  id : Z;
  name : string;
  radius : R;
  position : Vec3;
  orbitSpeed : R;
  isSun : bool
}.

(** [MoonSelection]: what [handleMoonClick] stores in the selection. *)
Record MoonSelection : Type := {
  moonName : string;
  moonRadius : R;
  parentPlanet : string;
  moonPosition : option Vec3
}.

(** [CelestialSelection = PlanetData | MoonSelection | null]; [null] is the
    [None] of the option around it. *)
Inductive CelestialSelection : Type :=
| SelPlanet (p : PlanetData)
| SelMoon (m : MoonSelection).

Inductive CameraState : Type :=
| INTRO_ANIMATION
| FREE
| ZOOMING_IN
| DETAIL_VIEW
| MOVING_TO_HOME.

#[global] Instance CameraState_eq_dec : EqDecision CameraState.
Proof. solve_decision. Defined.

(** ** PlanetsUpdater.js *)

Module PlanetsUpdater.

Definition ORBIT_SPEED_FACTOR : R := 50.

(** [Array.isArray(p.position) ? p.position[0] : p.position.x] *)
Definition distanceFromSun (planet : PlanetData) : R := Vector3.x (position planet).

(** [Math.sqrt(1 / Math.pow(distanceFromSun, 3))], for a distance above 0.
    At 0 JavaScript gives [Infinity] and below 0 [NaN], which the reals do
    not have: what is proved of the value assumes a distance above 0. *)
Definition keplerFactor (d : R) : R := sqrt (1 / d ^ 3).

Definition orbitSpeedRadians (planet : PlanetData) (speedFactor : R) : R :=
  ((orbitSpeed planet * ORBIT_SPEED_FACTOR * keplerFactor (distanceFromSun planet)) / 360)
  * (2 * PI) * speedFactor.

(** [prev[name] || 0]: a missing entry reads as 0 (and 0 is 0 already). *)
Definition orZero (o : option R) : R := default 0 o.

Definition newValue (prevOrbitProgress : gmap string R) (planet : PlanetData)
    (speedFactor deltaTime : R) : R :=
  orZero (prevOrbitProgress !! name planet) + orbitSpeedRadians planet speedFactor * deltaTime.

(** One iteration of [planets.forEach]: the state is [nextProgress] and
    [hasChanges]. *)
Definition visit (prevOrbitProgress : gmap string R) (speedFactor deltaTime : R)
    (acc : gmap string R * bool) (planet : PlanetData) : gmap string R * bool :=
  let '(nextProgress, hasChanges) := acc in
  if isSun planet then
    if bool_decide (nextProgress !! name planet = Some 0) then acc
    else (<[name planet := 0]> nextProgress, true)
  else
    let v := newValue prevOrbitProgress planet speedFactor deltaTime in
    if bool_decide (nextProgress !! name planet = Some v) then acc
    else (<[name planet := v]> nextProgress, true).

(** The value an iteration stores for its planet, whatever the accumulator. *)
Definition assigned (prevOrbitProgress : gmap string R) (speedFactor deltaTime : R)
    (planet : PlanetData) : R :=
  if isSun planet then 0 else newValue prevOrbitProgress planet speedFactor deltaTime.

Definition visitAll (planets : list PlanetData) (speedFactor deltaTime : R)
    (prevOrbitProgress : gmap string R) : gmap string R * bool :=
  foldl (visit prevOrbitProgress speedFactor deltaTime) (prevOrbitProgress, false) planets.

(** The progress map is a JavaScript object: [ref] is its identity, [entries]
    its own properties. *)
Record ProgressObject : Type := { ref : nat; entries : gmap string R }.

(** The callback given to [setPlanetOrbitProgress].  [fresh] is the identity
    of the object allocated by the spread [{ ...prevOrbitProgress }]. *)
Definition updater (planets : list PlanetData) (speedFactor deltaTime : R)
    (fresh : nat) (prevOrbitProgress : ProgressObject) : ProgressObject :=
  let '(nextProgress, hasChanges) :=
    visitAll planets speedFactor deltaTime (entries prevOrbitProgress) in
  if hasChanges then {| ref := fresh; entries := nextProgress |} else prevOrbitProgress.

(** The component: [lastElapsedTimeRef], the React state cell and the
    allocator of object identities. *)
Record State : Type := {
  lastElapsedTime : R;
  planetOrbitProgress : ProgressObject;
  nextRef : nat
}.

(** One [useFrame] callback: [elapsedTime] is the clock reading. *)
Definition frame (planets : list PlanetData) (elapsedTime speedFactor : R) (st : State) : State :=
  let deltaTime := elapsedTime - lastElapsedTime st in
  {| lastElapsedTime := elapsedTime;
     planetOrbitProgress :=
       updater planets speedFactor deltaTime (nextRef st) (planetOrbitProgress st);
     nextRef := S (nextRef st) |}.

(** A run: one frame per (clock reading, speed factor) pair. *)
Definition run (planets : list PlanetData) (inputs : list (R * R)) (st : State) : State :=
  foldl (fun s i => frame planets (fst i) (snd i) s) st inputs.

(** The [deltaTime] each frame of a run computes. *)
Fixpoint deltaTimes (last : R) (inputs : list (R * R)) : list (R * R) :=
  match inputs with
  | [] => []
  | (t, sf) :: rest => (t - last, sf) :: deltaTimes t rest
  end.

(** SolarSystem.js: the initial state has every catalogue name at 0. *)
Definition initialProgress (planets : list PlanetData) : gmap string R :=
  foldl (fun acc planet => <[name planet := 0]> acc) ∅ planets.

End PlanetsUpdater.

(** ** Planets.js: where a planet is drawn *)

Module Planet.

(** [x = cos(orbitProgress) * orbitRadius], [z = sin(orbitProgress) * orbitRadius],
    drawn and registered at [[x, 0, z]]. *)
Definition worldPosition (planet : PlanetData) (orbitProgress : R) : Vec3 :=
  let orbitRadius := Vector3.x (position planet) in
  Vector3.mk (cos orbitProgress * orbitRadius) 0 (sin orbitProgress * orbitRadius).

(** SolarSystem.js renders one [Planet] per non-sun body, with
    [orbitProgress = planetOrbitProgress[planet.name]]. *)
Definition renderedPositions (planets : list PlanetData) (progress : gmap string R)
    : list (string * option Vec3) :=
  map (fun planet => (name planet, worldPosition planet <$> progress !! name planet))
      (filter (fun planet => isSun planet = false) planets).

End Planet.

(** ** CameraController.js *)

(** A distance limit of the orbit controls: a number or [Infinity]. *)
Inductive Distance : Type :=
| Finite (d : R)
| Infinity.

(** The fields of drei's [OrbitControls] the controller writes. *)
Record OrbitControls : Type := {
  enabled : bool;
  minDistance : R;
  maxDistance : Distance;
  target : Vec3
}.

(** What [updateCameraState] reads and mutates besides the selection and the
    position registry: the camera, the two refs, the controls and the React
    camera state. [cameraLookAt] is the point last given to [camera.lookAt]. *)
Record Rig : Type := {
  cameraState : CameraState;
  cameraPosition : Vec3;
  cameraLookAt : Vec3;
  invisibleTarget : Vec3;
  introAnimationCompleted : bool;
  controls : OrbitControls
}.

Module CameraController.

Module CAMERA.
Definition LERP_FACTOR : R := 0.015.
Definition POSITION_EPSILON : R := 0.1.
Definition FAST_LERP_FACTOR : R := 0.04.
Definition HOME_POSITION : Vec3 := Vector3.mk 11 1 1.
End CAMERA.

Module DISTANCE_FACTORS.
Module SUN.
Definition MIN : R := 1.5.
Definition MAX : R := 10.
Definition OFFSET : Vec3 := Vector3.mk 8 4 6.
Definition SCALE : R := 0.4.
End SUN.
Module JUPITER.
Definition MIN : R := 1.2.
Definition MAX : R := 5.
Definition VERTICAL_OFFSET : R := 2.0.
Definition DISTANCE_FACTOR : R := 5.
End JUPITER.
Module DEFAULT_PLANET.
Definition MIN : R := 1.2.
Definition MAX : R := 3.
Definition VERTICAL_OFFSET : R := 1.5.
Definition DISTANCE_FACTOR : R := 3.
End DEFAULT_PLANET.
End DISTANCE_FACTORS.

(** The properties read off the selection object, whichever kind it is. *)
Definition selName (s : CelestialSelection) : string :=
  match s with SelPlanet p => name p | SelMoon m => moonName m end.
Definition selRadius (s : CelestialSelection) : R :=
  match s with SelPlanet p => radius p | SelMoon m => moonRadius m end.
Definition selIsSun (s : CelestialSelection) : bool :=
  match s with SelPlanet p => isSun p | SelMoon _ => false end.
Definition selIsMoon (s : CelestialSelection) : bool :=
  match s with SelPlanet _ => false | SelMoon _ => true end.

Definition getPlanetPosition (selectedPlanet : option CelestialSelection)
    (planetPositions : gmap string Vec3) : option Vec3 :=
  match selectedPlanet with
  | None => None
  | Some sel =>
      if selIsSun sel then Some Vector3.zero
      else
        match sel with
        | SelMoon {| moonPosition := Some p |} => Some p
        | _ => planetPositions !! selName sel
        end
  end.

(** The [config] record chosen in [calculateCameraOffset]:
    [(VERTICAL_OFFSET, DISTANCE_FACTOR)]. *)
Definition offsetConfig (sel : CelestialSelection) : R * R :=
  if selIsMoon sel then (0.3, 8)
  else if bool_decide (selName sel = "Jupiter"%string)
       then (DISTANCE_FACTORS.JUPITER.VERTICAL_OFFSET, DISTANCE_FACTORS.JUPITER.DISTANCE_FACTOR)
       else (DISTANCE_FACTORS.DEFAULT_PLANET.VERTICAL_OFFSET,
             DISTANCE_FACTORS.DEFAULT_PLANET.DISTANCE_FACTOR).

Definition calculateCameraOffset (planetPosition : Vec3) (sel : CelestialSelection) : Vec3 :=
  let sunDirection := Vector3.normalize (Vector3.sub Vector3.zero planetPosition) in
  let config := offsetConfig sel in
  Vector3.multiplyScalar
    (Vector3.normalize
       (Vector3.add
          (Vector3.multiplyScalar sunDirection (-1))
          (Vector3.multiplyScalar (Vector3.normalize (Vector3.mk 0.3 0.7 0.2)) (fst config))))
    (selRadius sel * snd config).

(** The camera position the zoom aims at ([targetPosition]). *)
Definition zoomTargetPosition (position : Vec3) (sel : CelestialSelection) : Vec3 :=
  if selIsSun sel then
    Vector3.add position
      (Vector3.multiplyScalar DISTANCE_FACTORS.SUN.OFFSET
         (selRadius sel * DISTANCE_FACTORS.SUN.SCALE))
  else Vector3.add position (calculateCameraOffset position sel).

(** The [distanceConfig] record chosen in the DETAIL_VIEW case: [(MIN, MAX)]. *)
Definition distanceConfig (sel : CelestialSelection) : R * R :=
  if selIsSun sel then (DISTANCE_FACTORS.SUN.MIN, DISTANCE_FACTORS.SUN.MAX)
  else if selIsMoon sel then (1.5, 15)
  else if bool_decide (selName sel = "Jupiter"%string)
       then (DISTANCE_FACTORS.JUPITER.MIN, DISTANCE_FACTORS.JUPITER.MAX)
       else (DISTANCE_FACTORS.DEFAULT_PLANET.MIN, DISTANCE_FACTORS.DEFAULT_PLANET.MAX).

Section Controller.

(** [controls.update()] belongs to three.js: from the controls and the
    camera position it yields the camera position the controls allow. *)
Variable orbitControlsUpdate : OrbitControls -> Vec3 -> Vec3.

Variable selectedPlanet : option CelestialSelection.
Variable planetPositions : gmap string Vec3.

Definition homePosition : Vec3 := CAMERA.HOME_POSITION.

Definition caseFree (rig : Rig) : Rig :=
  let c := {| enabled := true; minDistance := minDistance (controls rig);
              maxDistance := Infinity; target := target (controls rig) |} in
  {| cameraState := cameraState rig;
     cameraPosition := orbitControlsUpdate c (cameraPosition rig);
     cameraLookAt := cameraLookAt rig;
     invisibleTarget := invisibleTarget rig;
     introAnimationCompleted := introAnimationCompleted rig;
     controls := c |}.

Definition caseDetailView (rig : Rig) : Rig :=
  match selectedPlanet with
  | None => rig
  | Some sel =>
      match getPlanetPosition selectedPlanet planetPositions with
      | None => rig
      | Some planetPos =>
          let distanceConfig := distanceConfig sel in
          let c := {| enabled := true;
                      minDistance := selRadius sel * fst distanceConfig;
                      maxDistance := Finite (selRadius sel * snd distanceConfig);
                      target := planetPos |} in
          {| cameraState := cameraState rig;
             cameraPosition := orbitControlsUpdate c (cameraPosition rig);
             cameraLookAt := cameraLookAt rig;
             invisibleTarget := invisibleTarget rig;
             introAnimationCompleted := introAnimationCompleted rig;
             controls := c |}
      end
  end.

Definition caseIntroAnimation (rig : Rig) : Rig :=
  if introAnimationCompleted rig then rig
  else
    let c := {| enabled := false; minDistance := minDistance (controls rig);
                maxDistance := maxDistance (controls rig);
                target := target (controls rig) |} in
    let p := Vector3.lerp (cameraPosition rig) homePosition 0.015 in
    if bool_decide (Vector3.distanceTo p homePosition < 0.01) then
      {| cameraState := FREE;
         cameraPosition := homePosition;
         cameraLookAt := invisibleTarget rig;
         invisibleTarget := invisibleTarget rig;
         introAnimationCompleted := true;
         controls := c |}
    else
      {| cameraState := cameraState rig;
         cameraPosition := p;
         cameraLookAt := invisibleTarget rig;
         invisibleTarget := invisibleTarget rig;
         introAnimationCompleted := false;
         controls := c |}.

Definition caseMovingToHome (rig : Rig) : Rig :=
  let p := Vector3.lerp (cameraPosition rig) homePosition CAMERA.LERP_FACTOR in
  let t := Vector3.lerp (invisibleTarget rig) Vector3.zero CAMERA.LERP_FACTOR in
  if bool_decide (Vector3.distanceTo p homePosition < CAMERA.POSITION_EPSILON)
     && bool_decide (Vector3.distanceTo t Vector3.zero < CAMERA.POSITION_EPSILON)
  then
    let c := {| enabled := false; minDistance := minDistance (controls rig);
                maxDistance := Infinity; target := Vector3.zero |} in
    {| cameraState := FREE;
       cameraPosition := orbitControlsUpdate c homePosition;
       cameraLookAt := t;
       invisibleTarget := Vector3.zero;
       introAnimationCompleted := introAnimationCompleted rig;
       controls := c |}
  else
    {| cameraState := cameraState rig;
       cameraPosition := p;
       cameraLookAt := t;
       invisibleTarget := t;
       introAnimationCompleted := introAnimationCompleted rig;
       controls := {| enabled := false; minDistance := minDistance (controls rig);
                      maxDistance := maxDistance (controls rig);
                      target := target (controls rig) |} |}.

(** The two convergence tests of the ZOOMING_IN case, on the camera
    position and the look-at point as they are after this frame's lerp. *)
Definition reachedPosition (sel : CelestialSelection) (cameraPos targetPosition : Vec3) : bool :=
  bool_decide (Vector3.distanceTo cameraPos targetPosition
               < selRadius sel * CAMERA.POSITION_EPSILON).
Definition reachedLookAt (sel : CelestialSelection) (lookAt position : Vec3) : bool :=
  bool_decide (Vector3.distanceTo lookAt position
               < selRadius sel * CAMERA.POSITION_EPSILON).

Definition caseZoomingIn (rig : Rig) : Rig :=
  match selectedPlanet with
  | None => rig
  | Some sel =>
      match getPlanetPosition selectedPlanet planetPositions with
      | None => rig
      | Some position =>
          let targetPosition := zoomTargetPosition position sel in
          let p := Vector3.lerp (cameraPosition rig) targetPosition CAMERA.LERP_FACTOR in
          let t := Vector3.lerp (invisibleTarget rig) position CAMERA.FAST_LERP_FACTOR in
          if reachedPosition sel p targetPosition && reachedLookAt sel t position then
            let c := {| enabled := false; minDistance := minDistance (controls rig);
                        maxDistance := maxDistance (controls rig); target := t |} in
            {| cameraState := DETAIL_VIEW;
               cameraPosition := orbitControlsUpdate c p;
               cameraLookAt := t;
               invisibleTarget := t;
               introAnimationCompleted := introAnimationCompleted rig;
               controls := c |}
          else
            {| cameraState := cameraState rig;
               cameraPosition := p;
               cameraLookAt := t;
               invisibleTarget := t;
               introAnimationCompleted := introAnimationCompleted rig;
               controls := {| enabled := false; minDistance := minDistance (controls rig);
                              maxDistance := maxDistance (controls rig);
                              target := target (controls rig) |} |}
      end
  end.

(** [updateCameraState(state, controls)] for mounted controls; the
    [switch] on the state. *)
Definition updateCameraState (state : CameraState) (rig : Rig) : Rig :=
  match state with
  | FREE => caseFree rig
  | DETAIL_VIEW => caseDetailView rig
  | INTRO_ANIMATION => caseIntroAnimation rig
  | MOVING_TO_HOME => caseMovingToHome rig
  | ZOOMING_IN => caseZoomingIn rig
  end.

(** The [useFrame] callback: nothing happens while the controls ref is
    still [null] ([mounted = false]). *)
Definition frame (mounted : bool) (rig : Rig) : Rig :=
  if mounted then updateCameraState (cameraState rig) rig else rig.

End Controller.

End CameraController.

(** ** SpeedControlContext (types.ts: [SpeedControlContextType]) *)

(** The context is consumed through its interface only: a store holding the
    speed factor, and the three operations on it. *)
Class SpeedControlContextType (Store : Type) : Type := {
  speedFactor : Store -> R;
  setSpeedFactor : R -> Store -> Store;
  overrideSpeedFactor : Store -> Store;
  restoreSpeedFactor : Store -> Store
}.

(** ** SpeedControl.js *)

Module SpeedControl.

Definition SPEED_PRESETS : list R := [0; 1; 2; 5; 10].

(** [Array.prototype.findIndex]: the first index whose element satisfies
    the predicate, [-1] when there is none. *)
Fixpoint findIndexFrom {A : Type} (pred : A -> bool) (l : list A) (i : Z) : Z :=
  match l with
  | [] => (-1)%Z
  | a :: rest => if pred a then i else findIndexFrom pred rest (i + 1)%Z
  end.
Definition findIndex {A : Type} (pred : A -> bool) (l : list A) : Z :=
  findIndexFrom pred l 0%Z.

Definition isDisabled (cameraState : CameraState) : bool :=
  bool_decide (cameraState = ZOOMING_IN) || bool_decide (cameraState = DETAIL_VIEW).

Section Handlers.
Context {Store : Type} `{SpeedControlContextType Store}.

Definition handleCycleSpeed (cameraState : CameraState) (store : Store) : Store :=
  if negb (isDisabled cameraState) then
    let currentIndex :=
      findIndex (fun speed => bool_decide (Rabs (speedFactor store - speed) < 0.1))
                SPEED_PRESETS in
    let nextIndex := Z.rem (currentIndex + 1) (Z.of_nat (length SPEED_PRESETS)) in
    setSpeedFactor (nth (Z.to_nat nextIndex) SPEED_PRESETS 0) store
  else store.

End Handlers.

End SpeedControl.

(** ** The scene: selection, registry, camera rig and speed store together *)

Record Scene (Store : Type) : Type := {
  selectedPlanet : option CelestialSelection;
  planetPositions : gmap string Vec3;
  rig : Rig;
  controlsMounted : bool;
  speed : Store
}.
Arguments selectedPlanet {Store} _.
Arguments planetPositions {Store} _.
Arguments rig {Store} _.
Arguments controlsMounted {Store} _.
Arguments speed {Store} _.

Module SceneLoop.

Section Loop.
Context {Store : Type} `{SpeedControlContextType Store}.
Variable orbitControlsUpdate : OrbitControls -> Vec3 -> Vec3.

Definition setCameraState (state : CameraState) (r : Rig) : Rig :=
  {| cameraState := state;
     cameraPosition := cameraPosition r;
     cameraLookAt := cameraLookAt r;
     invisibleTarget := invisibleTarget r;
     introAnimationCompleted := introAnimationCompleted r;
     controls := controls r |}.

(** The camera controller's [useFrame] callback within the scene.  The
    controller reads the selection and the registry and holds no setter
    for either. *)
Definition cameraFrame (s : Scene Store) : Scene Store :=
  {| selectedPlanet := selectedPlanet s;
     planetPositions := planetPositions s;
     rig := CameraController.frame orbitControlsUpdate (selectedPlanet s)
              (planetPositions s) (controlsMounted s) (rig s);
     controlsMounted := controlsMounted s;
     speed := speed s |}.

Definition cameraFrames (n : nat) (s : Scene Store) : Scene Store :=
  Nat.iter n cameraFrame s.

(** KeyboardHandler.js [goHome], ControlMenu.js [handleGoHome] and
    [handleExitView]. *)
Definition goHome (s : Scene Store) : Scene Store :=
  {| selectedPlanet := None;
     planetPositions := planetPositions s;
     rig := setCameraState MOVING_TO_HOME (rig s);
     controlsMounted := controlsMounted s;
     speed := restoreSpeedFactor (speed s) |}.

(** KeyboardHandler.js [exitView]. *)
Definition exitView (s : Scene Store) : Scene Store :=
  match selectedPlanet s with
  | Some _ => if bool_decide (cameraState (rig s) = DETAIL_VIEW) then goHome s else s
  | None => s
  end.

(** Planets.js [handlePlanetClick], KeyboardHandler.js
    [selectPlanetByIndex]: a body of the catalogue becomes the selection. *)
Definition selectPlanet (planet : PlanetData) (s : Scene Store) : Scene Store :=
  {| selectedPlanet := Some (SelPlanet planet);
     planetPositions := planetPositions s;
     rig := setCameraState ZOOMING_IN (rig s);
     controlsMounted := controlsMounted s;
     speed := overrideSpeedFactor (speed s) |}.

End Loop.

End SceneLoop.

(** A plain store for the speed factor, used to run the handlers on concrete
    scenes: the factor in use and the user's own value. *)
Record SpeedStore : Type := { current : R; userValue : R }.

(** Modelled from the spec: SpeedControlContext.js is not part of the sources;
    section 4.5 gives its contract ([override] keeps the user's value and
    sets the current one to a small constant, [restore] puts the user's value
    back). *)
#[global] Instance SpeedStore_context : SpeedControlContextType SpeedStore := {
  speedFactor := current;
  setSpeedFactor v st := {| current := v; userValue := v |};
  overrideSpeedFactor st := {| current := 0.1; userValue := userValue st |};
  restoreSpeedFactor st := {| current := userValue st; userValue := userValue st |}
}.

(** ** Reference formulas and scenarios *)

Module Reference.
Import PlanetsUpdater.

(** The increment as the specification writes it:
    [orbitAngularSpeed * GLOBAL_SPEED_CONSTANT * orbitRadius^(-1.5) * speedFactor * deltaTime]. *)
Definition specAngularDelta (planet : PlanetData) (speedFactor deltaTime : R) : R :=
  orbitSpeed planet * 50 * Rpower (distanceFromSun planet) (-1.5) * speedFactor * deltaTime.

(** How far the entry of a planet moved in one call of the callback. *)
Definition progressGain (planets : list PlanetData) (speedFactor deltaTime : R)
    (fresh : nat) (prev : ProgressObject) (planet : PlanetData) : R :=
  orZero (entries (updater planets speedFactor deltaTime fresh prev) !! name planet)
  - orZero (entries prev !! name planet).

(** The entries a session keeps: the star at 0, every other body present. *)
Definition tracked (planets : list PlanetData) (m : gmap string R) : Prop :=
  forall p, p ∈ planets ->
    if isSun p then m !! name p = Some 0 else is_Some (m !! name p).

(** Every orbiting body is at a positive distance from the star. *)
Definition positiveOrbits (planets : list PlanetData) : Prop :=
  forall p, p ∈ planets -> isSun p = false -> 0 < distanceFromSun p.

(** Scenario A: a star of radius 5 and Earth at orbit radius 8, speed 1. *)
Definition sun : PlanetData :=
  {| id := 0; name := "Sun"; radius := 5; position := Vector3.mk 0 0 0;
     orbitSpeed := 0; isSun := true |}.
Definition earth : PlanetData :=
  {| id := 3; name := "Earth"; radius := 1; position := Vector3.mk 8 0 0;
     orbitSpeed := 1; isSun := false |}.
Definition scenarioA : list PlanetData := [sun; earth].

Definition startObject (planets : list PlanetData) : ProgressObject :=
  {| ref := 0; entries := initialProgress planets |}.
Definition startState (planets : list PlanetData) : State :=
  {| lastElapsedTime := 0; planetOrbitProgress := startObject planets; nextRef := 1 |}.

(** Two bodies that do not move on their own: base rate 0. *)
Definition rockA : PlanetData :=
  {| id := 1; name := "A"; radius := 1; position := Vector3.mk 1 0 0;
     orbitSpeed := 0; isSun := false |}.
Definition rockB : PlanetData :=
  {| id := 2; name := "B"; radius := 1; position := Vector3.mk 4 0 0;
     orbitSpeed := 0; isSun := false |}.

(** Two bodies with the same positive base rate at distances 1 and 4. *)
Definition innerBody : PlanetData :=
  {| id := 1; name := "Inner"; radius := 1; position := Vector3.mk 1 0 0;
     orbitSpeed := 2; isSun := false |}.
Definition outerBody : PlanetData :=
  {| id := 2; name := "Outer"; radius := 1; position := Vector3.mk 4 0 0;
     orbitSpeed := 2; isSun := false |}.

End Reference.

(** ** Sample scenes *)

Module Samples.
Import Reference.

(** Controls that leave the camera where the controller put it. *)
Definition noClamp : OrbitControls -> Vec3 -> Vec3 := fun _ p => p.

(** drei's defaults. *)
Definition defaultControls : OrbitControls :=
  {| enabled := true; minDistance := 0; maxDistance := Infinity; target := Vector3.zero |}.

Definition rigAt (state : CameraState) (cameraPos lookAt : Vec3) : Rig :=
  {| cameraState := state; cameraPosition := cameraPos; cameraLookAt := lookAt;
     invisibleTarget := lookAt; introAnimationCompleted := true;
     controls := defaultControls |}.

(** A moon selection as [handleMoonClick] builds it: a moon of Earth of
    radius 1, with the position computed at the click stored in it. *)
Definition luna : MoonSelection :=
  {| moonName := "Moon"; moonRadius := 1; parentPlanet := "Earth";
     moonPosition := Some (Vector3.mk 0.5 0 0) |}.

(** The registry holds the planets only. *)
Definition registryA : gmap string Vec3 := {[ "Earth"%string := Vector3.mk 8 0 0 ]}.

Definition sceneOf (sel : option CelestialSelection) (registry : gmap string Vec3)
    (r : Rig) : Scene SpeedStore :=
  {| selectedPlanet := sel; planetPositions := registry; rig := r;
     controlsMounted := true; speed := {| current := 1; userValue := 1 |} |}.

End Samples.

(** ** The rest of the motion code: Moons.js, the display of SpeedControl.js,
    KeyboardHandler.js, PlanetMenu.js and MobileGestureHandler.js *)

#[global] Instance R_le_dec : RelDecision Rle := Rle_dec.

(** [x || d] on an optional number: a missing value and 0 both give [d]. *)
Definition orDefault (o : option R) (d : R) : R :=
  match o with
  | Some v => if decide (v = 0) then d else v
  | None => d
  end.

Module Moons.

(** [MoonData] (types.ts); the orbit fields are optional.  The radius is
    taken present, as the selection built from the moon carries it. *)
Record MoonData : Type := {
  name : string;
  radius : R;
  orbitRadius : option R;
  orbitSpeed : option R
}.

(** One moon of the component: its entry of [moonOrbits] and the position of
    its mesh ([moonRefs.current[index]], [None] while the ref is not set). *)
Record MoonState : Type := { orbit : R; mesh : option Vec3 }.

Definition localPosition (moon : MoonData) (angle : R) : Vec3 :=
  let orbitRadius := orDefault (orbitRadius moon) 0.5 in
  Vector3.mk (cos angle * orbitRadius) 0 (sin angle * orbitRadius).

(** The body of [moons.forEach] in [useFrame]. *)
Definition frame (moon : MoonData) (delta speedFactor : R) (st : MoonState) : MoonState :=
  match mesh st with
  | None => st
  | Some _ =>
      let orbitSpeed := orDefault (orbitSpeed moon) 0.5 in
      let angle := orbit st + orbitSpeed * delta * speedFactor in
      {| orbit := angle; mesh := Some (localPosition moon angle) |}
  end.

Definition frames (moon : MoonData) (ticks : list (R * R)) (st : MoonState) : MoonState :=
  foldl (fun s tick => frame moon (fst tick) (snd tick) s) st ticks.

(** Planets.js mounts the component with [planetPosition={[0, 0, 0]}], inside
    the group that sits at the planet. *)
Definition planetPositionProp : Vec3 := Vector3.zero.

Definition moonWorldPosition (planetPosition : Vec3) (st : MoonState) : Vec3 :=
  match mesh st with
  | Some p => Vector3.add planetPosition p
  | None => planetPosition
  end.

Section Click.
Context {Store : Type} `{SpeedControlContextType Store}.

Definition handleMoonClick (planetPosition : Vec3) (planetName : string)
    (moon : MoonData) (st : MoonState) (s : Scene Store) : Scene Store :=
  let moonSelection :=
    {| moonName := name moon; moonRadius := radius moon; parentPlanet := planetName;
       moonPosition := Some (moonWorldPosition planetPosition st) |} in
  {| selectedPlanet := Some (SelMoon moonSelection);
     planetPositions := planetPositions s;
     rig := SceneLoop.setCameraState ZOOMING_IN (rig s);
     controlsMounted := controlsMounted s;
     speed := overrideSpeedFactor (speed s) |}.

End Click.

End Moons.

Module SpeedControlDisplay.

Definition speedIcon (isDisabled : bool) (speedFactor : R) : string :=
  if isDisabled then "⟳"
  else if bool_decide (speedFactor = 0) then "⏸"
  else if bool_decide (speedFactor < 1) then "▶"
  else if bool_decide (speedFactor <= 2) then "⏩"
  else "🚀".

Definition speedStatus (speedFactor : R) : string :=
  if bool_decide (speedFactor = 0) then "Paused"
  else if bool_decide (speedFactor < 0.5) then "Ultra Slow"
  else if bool_decide (speedFactor < 1) then "Slow"
  else if bool_decide (speedFactor = 1) then "Normal"
  else if bool_decide (speedFactor <= 2) then "Fast"
  else if bool_decide (speedFactor <= 5) then "Very Fast"
  else "Ludicrous Speed".

End SpeedControlDisplay.

(** The [id] read off a selection ([selectedPlanet.id]).  Whether a moon of
    the catalogue carries one is not in the sources: [moonId] stands for it. *)
Definition selectionId (moonId : MoonSelection -> option Z)
    (sel : CelestialSelection) : option Z :=
  match sel with
  | SelPlanet p => Some (id p)
  | SelMoon m => moonId m
  end.

Module KeyboardHandler.

Definition speedPresets : list R := [0; 0.5; 1; 2; 5].

Definition commandCenterRoute : string := "/secret/orbital-command-center".

(** The digit and letter cases of the [switch]: key code and catalogue index. *)
Definition planetKeys : list (string * Z) :=
  [("Digit0", 0%Z); ("Digit1", 1%Z); ("Digit2", 2%Z); ("Digit3", 3%Z); ("Digit4", 4%Z);
   ("Digit5", 5%Z); ("Digit6", 6%Z); ("Digit7", 7%Z); ("Digit8", 8%Z);
   ("KeyS", 0%Z); ("KeyM", 1%Z); ("KeyV", 2%Z); ("KeyE", 3%Z); ("KeyJ", 4%Z);
   ("KeyU", 5%Z); ("KeyN", 6%Z); ("KeyP", 7%Z); ("KeyQ", 8%Z)]%string.

Fixpoint planetKey (keys : list (string * Z)) (code : string) : option Z :=
  match keys with
  | [] => None
  | (k, i) :: rest => if bool_decide (code = k) then Some i else planetKey rest code
  end.

Section Handler.
Context {Store : Type} `{SpeedControlContextType Store}.
Variable planetsData : list PlanetData.
Variable moonId : MoonSelection -> option Z.

Definition setSpeed (value : R) (s : Scene Store) : Scene Store :=
  {| selectedPlanet := selectedPlanet s;
     planetPositions := planetPositions s;
     rig := rig s;
     controlsMounted := controlsMounted s;
     speed := setSpeedFactor value (speed s) |}.

Definition selectPlanetByIndex (index : Z) (s : Scene Store) : Scene Store :=
  if bool_decide (0 <= index)%Z && bool_decide (index < Z.of_nat (length planetsData))%Z then
    match planetsData !! Z.to_nat index with
    | Some planet => SceneLoop.selectPlanet planet s
    | None => s
    end
  else s.

Definition currentPresetIndex (s : Scene Store) : Z :=
  SpeedControl.findIndex
    (fun preset => bool_decide (Rabs (speedFactor (speed s) - preset) < 0.1)) speedPresets.

Definition cycleSpeedUp (s : Scene Store) : Scene Store :=
  let nextIndex := Z.min (currentPresetIndex s + 1) (Z.of_nat (length speedPresets) - 1) in
  setSpeed (nth (Z.to_nat nextIndex) speedPresets 0) s.

Definition cycleSpeedDown (s : Scene Store) : Scene Store :=
  let nextIndex := Z.max (currentPresetIndex s - 1) 0 in
  setSpeed (nth (Z.to_nat nextIndex) speedPresets 0) s.

(** [planetsData.findIndex(p => p.id === selectedPlanet.id)] *)
Definition selectedIndex (sel : CelestialSelection) : Z :=
  SpeedControl.findIndex
    (fun p => bool_decide (Some (id p) = selectionId moonId sel)) planetsData.

Definition arrowLeft (s : Scene Store) : Scene Store :=
  match selectedPlanet s with
  | Some sel =>
      let currentIndex := selectedIndex sel in
      let prevIndex :=
        if bool_decide (0 < currentIndex)%Z then (currentIndex - 1)%Z
        else (Z.of_nat (length planetsData) - 1)%Z in
      selectPlanetByIndex prevIndex s
  | None => selectPlanetByIndex 0 s
  end.

Definition arrowRight (s : Scene Store) : Scene Store :=
  match selectedPlanet s with
  | Some sel =>
      let currentIndex := selectedIndex sel in
      let nextIndex :=
        if bool_decide (currentIndex < Z.of_nat (length planetsData) - 1)%Z
        then (currentIndex + 1)%Z else 0%Z in
      selectPlanetByIndex nextIndex s
  | None => selectPlanetByIndex 0 s
  end.

(** [handleKeyDown]: [typing] says the event target is an input field or a
    text area, [code] is [event.code].  The result is the scene and the route
    pushed to the router, if any. *)
Definition handleKeyDown (typing : bool) (code : string) (s : Scene Store)
    : Scene Store * option string :=
  if typing then (s, None)
  else if bool_decide (code = "Escape"%string) then
    match selectedPlanet s with
    | Some _ =>
        if bool_decide (cameraState (rig s) = DETAIL_VIEW)
        then (SceneLoop.exitView s, None)
        else (s, Some commandCenterRoute)
    | None => (s, Some commandCenterRoute)
    end
  else if bool_decide (code = "KeyH"%string) || bool_decide (code = "Home"%string)
  then (SceneLoop.goHome s, None)
  else if bool_decide (code = "Space"%string)
  then (setSpeed (if bool_decide (speedFactor (speed s) = 0) then 1 else 0) s, None)
  else if bool_decide (code = "ArrowUp"%string) || bool_decide (code = "Equal"%string)
  then (cycleSpeedUp s, None)
  else if bool_decide (code = "ArrowDown"%string) || bool_decide (code = "Minus"%string)
  then (cycleSpeedDown s, None)
  else if bool_decide (code = "KeyR"%string) then (setSpeed 1 s, None)
  else
    match planetKey planetKeys code with
    | Some index => (selectPlanetByIndex index s, None)
    | None =>
        if bool_decide (code = "ArrowLeft"%string) then (arrowLeft s, None)
        else if bool_decide (code = "ArrowRight"%string) then (arrowRight s, None)
        else (s, None)
    end.

End Handler.

End KeyboardHandler.

Module PlanetMenu.

Section Menu.
Context {Store : Type} `{SpeedControlContextType Store}.
Variable planets : list PlanetData.
Variable moonId : MoonSelection -> option Z.

Definition handleSelect (planetName : string) (s : Scene Store) : Scene Store :=
  match List.find (fun planet => bool_decide (name planet = planetName)) planets with
  | None => s
  | Some selected =>
      if bool_decide (selectedPlanet s ≫= selectionId moonId = Some (id selected)) then s
      else SceneLoop.selectPlanet selected s
  end.

End Menu.

End PlanetMenu.

Module MobileGestureHandler.

Section Gestures.
Context {Store : Type} `{SpeedControlContextType Store}.
Variable planetsData : list PlanetData.
Variable moonId : MoonSelection -> option Z.

(** [handleTouchEnd] for a single changed touch: [deltaX], [deltaY] are the
    displacement since the touch started and [deltaTime] its duration in ms. *)
Definition handleTouchEnd (deltaX deltaY deltaTime : R) (s : Scene Store) : Scene Store :=
  let distance := sqrt (deltaX * deltaX + deltaY * deltaY) in
  let isTap := bool_decide (distance < 10) && bool_decide (deltaTime < 300) in
  let isSwipe := bool_decide (50 < distance) && bool_decide (deltaTime < 500) in
  if isTap then
    if bool_decide (cameraState (rig s) = DETAIL_VIEW) then SceneLoop.goHome s else s
  else if isSwipe then
    if bool_decide (cameraState (rig s) = FREE) && bool_decide (Rabs deltaY < Rabs deltaX) then
      let planets := filter (fun p => isSun p = false) planetsData in
      let currentIndex :=
        match selectedPlanet s with
        | Some sel =>
            SpeedControl.findIndex
              (fun p => bool_decide (Some (id p) = selectionId moonId sel)) planets
        | None => (-1)%Z
        end in
      if bool_decide (0 < deltaX) && bool_decide (0 < currentIndex)%Z then
        match planets !! Z.to_nat (currentIndex - 1) with
        | Some prevPlanet => SceneLoop.selectPlanet prevPlanet s
        | None => s
        end
      else if bool_decide (deltaX < 0)
              && bool_decide (currentIndex < Z.of_nat (length planets) - 1)%Z then
        match planets !! Z.to_nat (currentIndex + 1) with
        | Some nextPlanet => SceneLoop.selectPlanet nextPlanet s
        | None => s
        end
      else s
    else s
  else s.

End Gestures.

End MobileGestureHandler.

(** ** The session: every writer of the selection and of the camera state *)

Module Session.

Section Session.
Context {Store : Type} `{SpeedControlContextType Store}.
Variable planetsData : list PlanetData.
Variable moonId : MoonSelection -> option Z.

(** Planets.js [handlePlanetClick], for the planet component with this [id]. *)
Definition handlePlanetClick (planetId : Z) (s : Scene Store) : Scene Store :=
  match List.find (fun planet => bool_decide (id planet = planetId)) planetsData with
  | Some planetData => SceneLoop.selectPlanet planetData s
  | None => s
  end.

(** celestial/Sun-fixed.js (the Sun component) [handleSunClick]. *)
Definition handleSunClick (s : Scene Store) : Scene Store :=
  match List.find (fun planet => isSun planet) planetsData with
  | Some sunData => SceneLoop.selectPlanet sunData s
  | None => s
  end.

(** The parts of the scene that neither the selection setter nor the camera
    state setter reaches: the registry (written through the position context
    by Planets.js), the speed store (written by the speed controls) and the
    ref of the controls. *)
Definition writeRegistry (f : gmap string Vec3 -> gmap string Vec3) (s : Scene Store)
    : Scene Store :=
  {| selectedPlanet := selectedPlanet s;
     planetPositions := f (planetPositions s);
     rig := rig s;
     controlsMounted := controlsMounted s;
     speed := speed s |}.

Definition writeSpeed (f : Store -> Store) (s : Scene Store) : Scene Store :=
  {| selectedPlanet := selectedPlanet s;
     planetPositions := planetPositions s;
     rig := rig s;
     controlsMounted := controlsMounted s;
     speed := f (speed s) |}.

Definition setControlsRef (mounted : bool) (s : Scene Store) : Scene Store :=
  {| selectedPlanet := selectedPlanet s;
     planetPositions := planetPositions s;
     rig := rig s;
     controlsMounted := mounted;
     speed := speed s |}.

(** What can happen to a scene.  The first nine are the callbacks of the
    sources that call [setSelectedPlanet] or [setCameraState]: the frame of
    CameraController.js (with what [controls.update()] does on that frame),
    [handleKeyDown], the planet menu (SolarSystem.js mounts it with
    [planets={planetsData}]), the touch gestures, the clicks on a planet, on
    the star and on a moon, and [handleGoHome] and [handleExitView] of
    ControlMenu.js.  The last three change the rest of the scene in any way. *)
Inductive Event : Type :=
| Frame (orbitControlsUpdate : OrbitControls -> Vec3 -> Vec3)
| KeyDown (typing : bool) (code : string)
| MenuSelect (planetName : string)
| TouchEnd (deltaX deltaY deltaTime : R)
| PlanetClick (planetId : Z)
| SunClick
| MoonClick (planetPosition : Vec3) (planetName : string)
    (moon : Moons.MoonData) (st : Moons.MoonState)
| HomeButton
| ExitViewButton
| RegistryWrite (f : gmap string Vec3 -> gmap string Vec3)
| SpeedWrite (f : Store -> Store)
| ControlsRef (mounted : bool).

Definition handle (e : Event) (s : Scene Store) : Scene Store :=
  match e with
  | Frame orbitControlsUpdate => SceneLoop.cameraFrame orbitControlsUpdate s
  | KeyDown typing code =>
      fst (KeyboardHandler.handleKeyDown planetsData moonId typing code s)
  | MenuSelect planetName => PlanetMenu.handleSelect planetsData moonId planetName s
  | TouchEnd deltaX deltaY deltaTime =>
      MobileGestureHandler.handleTouchEnd planetsData moonId deltaX deltaY deltaTime s
  | PlanetClick planetId => handlePlanetClick planetId s
  | SunClick => handleSunClick s
  | MoonClick planetPosition planetName moon st =>
      Moons.handleMoonClick planetPosition planetName moon st s
  | HomeButton => SceneLoop.goHome s
  | ExitViewButton => SceneLoop.goHome s
  | RegistryWrite f => writeRegistry f s
  | SpeedWrite f => writeSpeed f s
  | ControlsRef mounted => setControlsRef mounted s
  end.

(** A session: the events in the order they happen.  It starts from a scene
    with nothing selected ([useState(null)] in SelectedPlanetContext.js); the
    camera state it starts in is left open, CameraContext.js not being among
    the sources. *)
Definition session (events : list Event) (s : Scene Store) : Scene Store :=
  foldl (fun scene e => handle e scene) s events.

(** The selection and the camera state are set together: no body is selected
    while the camera returns home. *)
Definition homeward (s : Scene Store) : Prop :=
  cameraState (rig s) = MOVING_TO_HOME -> selectedPlanet s = None.

End Session.

End Session.

(** * Properties *)

(** ** The loop of PlanetsUpdater *)

Module PlanetsUpdaterFacts.
Import PlanetsUpdater.

Section Loop.
Variable prev : gmap string R.
Variables speedFactor deltaTime : R.

Local Abbreviation step := (visit prev speedFactor deltaTime).
Local Abbreviation val := (assigned prev speedFactor deltaTime).

Lemma visit_unfold (m : gmap string R) (b : bool) (p : PlanetData) :
  step (m, b) p =
  if bool_decide (m !! name p = Some (val p)) then (m, b)
  else (<[name p := val p]> m, true).
Proof. unfold visit, assigned. destruct (isSun p); reflexivity. Qed.

Lemma visit_lookup_self (acc : gmap string R * bool) (p : PlanetData) :
  (step acc p).1 !! name p = Some (val p).
Proof.
  destruct acc as [m b]. rewrite visit_unfold.
  case_bool_decide as E; simpl; [exact E | apply lookup_insert_eq].
Qed.

Lemma visit_lookup_other (acc : gmap string R * bool) (p : PlanetData) (k : string) :
  k ≠ name p -> (step acc p).1 !! k = acc.1 !! k.
Proof.
  intros Hk. destruct acc as [m b]. rewrite visit_unfold.
  case_bool_decide; simpl; [reflexivity | by apply lookup_insert_ne].
Qed.

Lemma visit_flag (acc : gmap string R * bool) (p : PlanetData) :
  (step acc p).2 = acc.2 || negb (bool_decide (acc.1 !! name p = Some (val p))).
Proof.
  destruct acc as [m b]. rewrite visit_unfold. simpl.
  destruct (bool_decide (m !! name p = Some (val p))); destruct b; reflexivity.
Qed.

(** An iteration that does not raise the flag leaves the map alone. *)
Lemma visit_quiet (acc : gmap string R * bool) (p : PlanetData) :
  (step acc p).2 = false -> step acc p = acc.
Proof.
  destruct acc as [m b]. rewrite visit_unfold.
  case_bool_decide; simpl; [reflexivity | discriminate].
Qed.

Lemma visit_flag_mono (acc : gmap string R * bool) (p : PlanetData) :
  acc.2 = true -> (step acc p).2 = true.
Proof. intros Hb. rewrite visit_flag, Hb. reflexivity. Qed.

Lemma fold_flag_mono (l : list PlanetData) (acc : gmap string R * bool) :
  acc.2 = true -> (foldl step acc l).2 = true.
Proof.
  revert acc. induction l as [|p l IH]; intros acc Hb; simpl; [exact Hb|].
  apply IH, visit_flag_mono, Hb.
Qed.

Lemma fold_quiet (l : list PlanetData) (acc : gmap string R * bool) :
  (foldl step acc l).2 = false -> foldl step acc l = acc.
Proof.
  revert acc. induction l as [|p l IH]; intros acc Hq; simpl in *; [reflexivity|].
  destruct ((step acc p).2) eqn:Eb.
  - rewrite fold_flag_mono in Hq by exact Eb. discriminate.
  - rewrite IH by exact Hq. by apply visit_quiet.
Qed.

Lemma fold_lookup_notin (l : list PlanetData) (acc : gmap string R * bool) (k : string) :
  k ∉ name <$> l -> (foldl step acc l).1 !! k = acc.1 !! k.
Proof.
  revert acc. induction l as [|p l IH]; intros acc Hk; simpl; [reflexivity|].
  rewrite fmap_cons in Hk. apply not_elem_of_cons in Hk as [Hne Hk].
  rewrite IH by exact Hk. by apply visit_lookup_other.
Qed.

Lemma fold_lookup_in (l : list PlanetData) (acc : gmap string R * bool) (p : PlanetData) :
  NoDup (name <$> l) -> p ∈ l -> (foldl step acc l).1 !! name p = Some (val p).
Proof.
  revert acc. induction l as [|q l IH]; intros acc Hnd Hin; [by apply elem_of_nil in Hin|].
  rewrite fmap_cons in Hnd. apply NoDup_cons in Hnd as [Hq Hnd].
  apply elem_of_cons in Hin as [->|Hin]; simpl.
  - rewrite fold_lookup_notin by exact Hq. apply visit_lookup_self.
  - by apply IH.
Qed.

(** With distinct names, the flag is raised exactly when some body's entry
    in the map the loop started from differs from the value stored for it. *)
Lemma fold_flag (l : list PlanetData) (acc : gmap string R * bool) :
  NoDup (name <$> l) ->
  (foldl step acc l).2 = true <->
  acc.2 = true \/ exists p, p ∈ l /\ acc.1 !! name p ≠ Some (val p).
Proof.
  revert acc. induction l as [|q l IH]; intros acc Hnd; simpl.
  - split; [by left | intros [Hb | (p & Hin & _)]; [exact Hb | by apply elem_of_nil in Hin]].
  - rewrite fmap_cons in Hnd. apply NoDup_cons in Hnd as [Hq Hnd].
    rewrite IH by exact Hnd. rewrite visit_flag. split.
    + intros [Hb | (p & Hin & Hp)].
      * apply orb_true_iff in Hb as [Hb | Hb]; [by left|].
        right. exists q. split; [by left|].
        apply negb_true_iff in Hb. by apply bool_decide_eq_false in Hb.
      * right. exists p. split; [by right|].
        rewrite visit_lookup_other in Hp; [exact Hp|].
        intros E. apply Hq. rewrite <- E. by apply list_elem_of_fmap_2.
    + intros [Hb | (p & Hin & Hp)]; [left; by rewrite Hb|].
      apply elem_of_cons in Hin as [->|Hin].
      * left. apply orb_true_iff. right. apply negb_true_iff.
        by apply bool_decide_eq_false.
      * right. exists p. split; [exact Hin|].
        rewrite visit_lookup_other; [exact Hp|].
        intros E. apply Hq. rewrite <- E. by apply list_elem_of_fmap_2.
Qed.

End Loop.

(** The entries of the object the callback returns are those the loop
    built, whichever object carries them. *)
Lemma updater_entries planets sf dt fresh (prev : ProgressObject) :
  entries (updater planets sf dt fresh prev) = (visitAll planets sf dt (entries prev)).1.
Proof.
  unfold updater. destruct (visitAll planets sf dt (entries prev)) as [m b] eqn:E.
  destruct b; simpl; [reflexivity|].
  unfold visitAll in E. rewrite fold_quiet in E by (by rewrite E).
  by inversion E.
Qed.

Lemma updater_lookup_in planets sf dt fresh (prev : ProgressObject) (p : PlanetData) :
  NoDup (name <$> planets) -> p ∈ planets ->
  entries (updater planets sf dt fresh prev) !! name p
  = Some (assigned (entries prev) sf dt p).
Proof. intros Hnd Hin. rewrite updater_entries. by apply fold_lookup_in. Qed.

End PlanetsUpdaterFacts.

(** ** Real-number facts the orbit formulas rest on *)

Module Numeric.
Import PlanetsUpdater.

Lemma PI_bounds : 3.1415 < PI < 3.1421.
Proof.
  pose proof (PI_2_3_7_ineq 1) as [Hlo Hhi].
  unfold sum_f_R0, tg_alt, PI_2_3_7_tg, Ratan_seq in Hlo, Hhi.
  simpl in Hlo, Hhi. split; lra.
Qed.

Lemma cos_taylor (a : R) :
  - PI / 2 <= a -> a <= PI / 2 ->
  1 - a * a / 2 <= cos a <= 1 - a * a / 2 + a * a * a * a / 24.
Proof.
  intros H1 H2. pose proof (cos_bound a 0 H1 H2) as [Hlo Hhi].
  unfold cos_approx, cos_term, sum_f_R0 in Hlo, Hhi. simpl in Hlo, Hhi.
  split; lra.
Qed.

Lemma sin_taylor (a : R) :
  0 < a -> a <= PI -> a - a * a * a / 6 <= sin a < a.
Proof.
  intros H1 H2. assert (H0 : 0 <= a) by lra.
  pose proof (sin_bound a 0 H0 H2) as [Hlo _].
  unfold sin_approx, sin_term, sum_f_R0 in Hlo. simpl in Hlo.
  split; [lra | by apply sin_lt_x].
Qed.

Lemma cube_pos (d : R) : 0 < d -> 0 < d ^ 3.
Proof. intros Hd. apply pow_lt, Hd. Qed.

Lemma keplerFactor_pos (d : R) : 0 < d -> 0 < keplerFactor d.
Proof.
  intros Hd. unfold keplerFactor. apply sqrt_lt_R0.
  apply Rdiv_lt_0_compat; [lra | by apply cube_pos].
Qed.

(** [sqrt (1 / d^3)] is [d] to the power [-1.5]. *)
Lemma keplerFactor_Rpower (d : R) : 0 < d -> keplerFactor d = Rpower d (-1.5).
Proof.
  intros Hd. unfold keplerFactor.
  assert (H3 : 1 / d ^ 3 = Rpower d (- INR 3)).
  { rewrite Rpower_Ropp, Rpower_pow by exact Hd. unfold Rdiv. by rewrite Rmult_1_l. }
  rewrite H3, <- Rpower_sqrt by apply exp_pos.
  rewrite Rpower_mult. f_equal. simpl. lra.
Qed.

(** Farther bodies get a strictly smaller factor. *)
Lemma keplerFactor_decreasing (a b : R) :
  0 < a -> a < b -> keplerFactor b < keplerFactor a.
Proof.
  intros Ha Hab. unfold keplerFactor.
  assert (Hb : 0 < b) by lra.
  pose proof (cube_pos a Ha) as Ha3. pose proof (cube_pos b Hb) as Hb3.
  assert (Hlt : a ^ 3 < b ^ 3).
  { simpl. rewrite !Rmult_1_r.
    assert (a * a < b * b) by nra. nra. }
  apply sqrt_lt_1_alt. split.
  - apply Rlt_le, Rdiv_lt_0_compat; lra.
  - unfold Rdiv. rewrite !Rmult_1_l. apply Rinv_lt_contravar; [nra | exact Hlt].
Qed.

Lemma keplerFactor_8 : 0.04419 < keplerFactor 8 < 0.0442.
Proof.
  pose proof (keplerFactor_pos 8 ltac:(lra)) as Hpos.
  assert (Hsq : keplerFactor 8 * keplerFactor 8 = 1 / 512).
  { unfold keplerFactor. rewrite sqrt_sqrt; [simpl; lra |].
    apply Rlt_le, Rdiv_lt_0_compat; [lra | apply cube_pos; lra]. }
  split; nra.
Qed.

End Numeric.

(** ** The orbital update *)

Module OrbitClaims.
Import PlanetsUpdater Reference PlanetsUpdaterFacts Numeric.

Lemma scenarioA_names : NoDup (name <$> scenarioA).
Proof. apply (bool_decide_unpack _). reflexivity. Qed.

Lemma earth_in_scenarioA : earth ∈ scenarioA.
Proof. apply elem_of_cons. right. apply elem_of_cons. by left. Qed.

Lemma sun_in_scenarioA : sun ∈ scenarioA.
Proof. apply elem_of_cons. by left. Qed.

Lemma initialProgress_fold (l : list PlanetData) (acc : gmap string R) (k : string) :
  foldl (fun acc planet => <[name planet := 0]> acc) acc l !! k
  = if bool_decide (k ∈ name <$> l) then Some 0 else acc !! k.
Proof.
  revert acc. induction l as [|q l IH]; intros acc; [reflexivity|].
  cbn [foldl]. rewrite IH. rewrite fmap_cons.
  destruct (decide (k ∈ name <$> l)) as [Hin|Hin].
  - rewrite !bool_decide_eq_true_2; [reflexivity | by right | exact Hin].
  - rewrite (bool_decide_eq_false_2 _ Hin).
    destruct (decide (k = name q)) as [->|Hne].
    + rewrite lookup_insert_eq, bool_decide_eq_true_2; [reflexivity | by left].
    + rewrite lookup_insert_ne by (by intros E; apply Hne).
      rewrite bool_decide_eq_false_2; [reflexivity|].
      intros Hc. apply elem_of_cons in Hc as [Hc|Hc]; [by apply Hne | by apply Hin].
Qed.

Lemma initialProgress_lookup_in (planets : list PlanetData) (p : PlanetData) :
  p ∈ planets -> initialProgress planets !! name p = Some 0.
Proof.
  intros Hin. unfold initialProgress. rewrite initialProgress_fold.
  rewrite bool_decide_eq_true_2; [reflexivity | by apply list_elem_of_fmap_2].
Qed.

(** The value the callback stores for a body that is not the star. *)
Lemma updater_planet_entry planets sf dt fresh (prev : ProgressObject) (p : PlanetData) :
  NoDup (name <$> planets) -> p ∈ planets -> isSun p = false ->
  entries (updater planets sf dt fresh prev) !! name p
  = Some (orZero (entries prev !! name p) + orbitSpeedRadians p sf * dt).
Proof.
  intros Hnd Hin Hs. rewrite updater_lookup_in by assumption.
  unfold assigned, newValue. by rewrite Hs.
Qed.

Lemma updater_star_entry planets sf dt fresh (prev : ProgressObject) (p : PlanetData) :
  NoDup (name <$> planets) -> p ∈ planets -> isSun p = true ->
  entries (updater planets sf dt fresh prev) !! name p = Some 0.
Proof.
  intros Hnd Hin Hs. rewrite updater_lookup_in by assumption.
  unfold assigned. by rewrite Hs.
Qed.

Lemma earth_step_bounds : 0.03856 < orbitSpeedRadians earth 1 * 1 < 0.03858.
Proof.
  unfold orbitSpeedRadians, ORBIT_SPEED_FACTOR, distanceFromSun. simpl.
  pose proof keplerFactor_8 as [Hk1 Hk2]. pose proof PI_bounds as [Hp1 Hp2].
  set (k := keplerFactor 8) in *.
  assert (H1 : 0.04419 * 3.1415 < k * PI) by nra.
  assert (H2 : k * PI < 0.0442 * 3.1421) by nra.
  split; lra.
Qed.

Lemma orZero_Some (v : R) : orZero (Some v) = v.
Proof. reflexivity. Qed.

Lemma start_entry (planets : list PlanetData) (p : PlanetData) :
  p ∈ planets -> orZero (entries (startObject planets) !! name p) = 0.
Proof.
  intros Hin. change (entries (startObject planets)) with (initialProgress planets).
  by rewrite (initialProgress_lookup_in planets p Hin).
Qed.

Lemma earth_first_entry :
  entries (updater scenarioA 1 1 1%nat (startObject scenarioA)) !! "Earth"%string
  = Some (orbitSpeedRadians earth 1 * 1).
Proof.
  change "Earth"%string with (name earth).
  rewrite (updater_planet_entry scenarioA 1 1 1%nat (startObject scenarioA) earth
             scenarioA_names earth_in_scenarioA eq_refl).
  rewrite (start_entry scenarioA earth earth_in_scenarioA). f_equal. lra.
Qed.

(** C1, as the specification states it, fails on Scenario A: the entry the
    code stores for Earth after one step with [deltaTime = 1] and
    [speedFactor = 1] is not [orbitAngularSpeed * 50 * orbitRadius^(-1.5)]
    (about 2.21); it is below 0.04, and Earth is still on the positive [x]
    side of its orbit, far from [x = -6.45]. *)
Lemma C1_scenarioA_counterexample :
  exists v : R,
    entries (updater scenarioA 1 1 1%nat (startObject scenarioA)) !! "Earth"%string = Some v
    /\ progressGain scenarioA 1 1 1%nat (startObject scenarioA) earth = v
    /\ v <> specAngularDelta earth 1 1
    /\ v < 0.04
    /\ 7.9 < Vector3.x (Planet.worldPosition earth v).
Proof.
  exists (orbitSpeedRadians earth 1 * 1).
  pose proof earth_step_bounds as [Hv1 Hv2].
  pose proof PI_bounds as [Hp1 Hp2].
  split; [exact earth_first_entry|].
  split.
  { unfold progressGain.
    rewrite (start_entry scenarioA earth earth_in_scenarioA).
    change (name earth) with "Earth"%string. rewrite earth_first_entry.
    rewrite orZero_Some. lra. }
  split.
  { unfold specAngularDelta, distanceFromSun. simpl.
    rewrite <- keplerFactor_Rpower by lra.
    pose proof keplerFactor_8 as [Hk1 Hk2]. lra. }
  split; [lra|].
  unfold Planet.worldPosition. simpl.
  set (v := orbitSpeedRadians earth 1 * 1) in *.
  pose proof (cos_taylor v ltac:(lra) ltac:(lra)) as [Hc _].
  nra.
Qed.

(** C1, amended: for every body that is not the star, one call of the update
    adds [orbitSpeed * 50 * orbitRadius^(-1.5) * (PI / 180) * speedFactor *
    deltaTime] to its entry (the specification's product, taken in degrees
    and converted to radians).  On Scenario A the first step with
    [deltaTime = 1] and [speedFactor = 1] adds about 0.0386 rad and puts
    Earth at about (7.994, 0, 0.308). *)
Theorem C1_angular_delta_in_degrees :
  (forall planets sf dt fresh (prev : ProgressObject) (p : PlanetData),
      NoDup (name <$> planets) -> p ∈ planets -> isSun p = false ->
      0 < distanceFromSun p ->
      entries (updater planets sf dt fresh prev) !! name p
      = Some (orZero (entries prev !! name p)
              + orbitSpeed p * 50 * Rpower (distanceFromSun p) (-1.5) * (PI / 180) * sf * dt)
      /\ progressGain planets sf dt fresh prev p
         = specAngularDelta p sf dt * (PI / 180))
  /\ (exists v : R,
        entries (updater scenarioA 1 1 1%nat (startObject scenarioA)) !! "Earth"%string = Some v
        /\ 0.0385 < v < 0.0386
        /\ 7.994 < Vector3.x (Planet.worldPosition earth v) < 7.995
        /\ Vector3.y (Planet.worldPosition earth v) = 0
        /\ 0.308 < Vector3.z (Planet.worldPosition earth v) < 0.309).
Proof.
  split.
  - intros planets sf dt fresh prev p Hnd Hin Hs Hd.
    pose proof (updater_planet_entry planets sf dt fresh prev p Hnd Hin Hs) as E.
    assert (Hform : orbitSpeedRadians p sf * dt
                    = orbitSpeed p * 50 * Rpower (distanceFromSun p) (-1.5)
                      * (PI / 180) * sf * dt).
    { unfold orbitSpeedRadians, ORBIT_SPEED_FACTOR.
      rewrite (keplerFactor_Rpower _ Hd). lra. }
    split.
    + rewrite E. f_equal. lra.
    + unfold progressGain, specAngularDelta. rewrite E.
      rewrite orZero_Some. lra.
  - exists (orbitSpeedRadians earth 1 * 1).
    pose proof earth_step_bounds as [Hv1 Hv2].
    pose proof PI_bounds as [Hp1 Hp2].
    split; [exact earth_first_entry|].
    unfold Planet.worldPosition. simpl.
    set (v := orbitSpeedRadians earth 1 * 1) in *.
    pose proof (cos_taylor v ltac:(lra) ltac:(lra)) as [Hc1 Hc2].
    pose proof (sin_taylor v ltac:(lra) ltac:(lra)) as [Hs1 Hs2].
    assert (Hsq1 : 0.03856 * 0.03856 < v * v) by nra.
    assert (Hsq2 : v * v < 0.03858 * 0.03858) by nra.
    assert (Hcu : v * v * v < 0.03858 * 0.03858 * 0.03858) by nra.
    assert (Hqu : v * v * v * v < 0.03858 * 0.03858 * (0.03858 * 0.03858)) by nra.
    repeat split; try lra.
Qed.

Lemma C1_angular_delta_witness :
  progressGain scenarioA 2 3 1%nat (startObject scenarioA) earth
  = specAngularDelta earth 2 3 * (PI / 180).
Proof.
  apply (proj1 C1_angular_delta_in_degrees scenarioA 2 3 1%nat (startObject scenarioA) earth).
  - exact scenarioA_names.
  - exact earth_in_scenarioA.
  - reflexivity.
  - unfold distanceFromSun. simpl. lra.
Defined.

(** *** The star *)

Lemma run_cons planets (i : R * R) inputs (st : State) :
  run planets (i :: inputs) st = run planets inputs (frame planets (fst i) (snd i) st).
Proof. reflexivity. Qed.

Lemma run_star_entry planets inputs (st : State) (star : PlanetData) :
  NoDup (name <$> planets) -> star ∈ planets -> isSun star = true ->
  entries (planetOrbitProgress st) !! name star = Some 0 ->
  entries (planetOrbitProgress (run planets inputs st)) !! name star = Some 0.
Proof.
  intros Hnd Hin Hs. revert st.
  induction inputs as [|i inputs IH]; intros st H0; [exact H0|].
  rewrite run_cons. apply IH. simpl. by apply updater_star_entry.
Qed.

(** C5: through any run of frames, at any speed factor, the entry of the
    star in the progress map is 0, and the position the camera controller
    takes for the star is the origin whatever the registry holds. *)
Theorem C5_star_pinned planets inputs (st : State) (star : PlanetData)
    (registry : gmap string Vec3) :
  NoDup (name <$> planets) -> star ∈ planets -> isSun star = true ->
  entries (planetOrbitProgress st) = initialProgress planets ->
  entries (planetOrbitProgress (run planets inputs st)) !! name star = Some 0
  /\ CameraController.getPlanetPosition (Some (SelPlanet star)) registry
     = Some Vector3.zero.
Proof.
  intros Hnd Hin Hs Hinit. split.
  - apply run_star_entry; try assumption.
    rewrite Hinit. by apply initialProgress_lookup_in.
  - unfold CameraController.getPlanetPosition. simpl. by rewrite Hs.
Qed.

Lemma C5_star_pinned_witness :
  entries (planetOrbitProgress (run scenarioA [(1, 1); (2, 10); (5, 0)] (startState scenarioA)))
    !! "Sun"%string = Some 0
  /\ CameraController.getPlanetPosition (Some (SelPlanet sun))
       {[ "Earth"%string := Vector3.mk 8 0 0 ]} = Some Vector3.zero.
Proof.
  apply (C5_star_pinned scenarioA [(1, 1); (2, 10); (5, 0)] (startState scenarioA) sun).
  - exact scenarioA_names.
  - exact sun_in_scenarioA.
  - reflexivity.
  - reflexivity.
Defined.

(** *** Kepler ordering *)

Lemma progressGain_planet planets sf dt fresh (prev : ProgressObject) (p : PlanetData) :
  NoDup (name <$> planets) -> p ∈ planets -> isSun p = false ->
  progressGain planets sf dt fresh prev p = orbitSpeedRadians p sf * dt.
Proof.
  intros Hnd Hin Hs. unfold progressGain.
  rewrite (updater_planet_entry planets sf dt fresh prev p Hnd Hin Hs), orZero_Some. lra.
Qed.

Lemma rocks_names : NoDup (name <$> [rockA; rockB]).
Proof. apply (bool_decide_unpack _). reflexivity. Qed.

(** C6, as the specification states it, fails for two bodies whose common
    base rate is 0: both stand still, the inner one does not gain more. *)
Lemma C6_zero_rate_counterexample :
  isSun rockA = false /\ isSun rockB = false
  /\ distanceFromSun rockA < distanceFromSun rockB
  /\ orbitSpeed rockA = orbitSpeed rockB
  /\ ~ (progressGain [rockA; rockB] 1 1 1%nat (startObject [rockA; rockB]) rockA
        > progressGain [rockA; rockB] 1 1 1%nat (startObject [rockA; rockB]) rockB).
Proof.
  split; [reflexivity|]. split; [reflexivity|].
  split; [unfold distanceFromSun; simpl; lra|].
  split; [reflexivity|].
  rewrite !progressGain_planet;
    try exact rocks_names; try reflexivity;
    try (apply elem_of_cons; (by left) || (right; apply elem_of_cons; by left)).
  unfold orbitSpeedRadians. simpl. lra.
Qed.

(** C6, amended: for two bodies that are not the star, with the same
    strictly positive base rate and positive orbit radii, the one closer to
    the star gains strictly more progress in any update with positive
    [deltaTime] and positive [speedFactor]. *)
Theorem C6_kepler_monotone planets sf dt fresh (prev : ProgressObject) (A B : PlanetData) :
  NoDup (name <$> planets) -> A ∈ planets -> B ∈ planets ->
  isSun A = false -> isSun B = false ->
  0 < distanceFromSun A -> distanceFromSun A < distanceFromSun B ->
  orbitSpeed A = orbitSpeed B -> 0 < orbitSpeed A ->
  0 < dt -> 0 < sf ->
  progressGain planets sf dt fresh prev A > progressGain planets sf dt fresh prev B.
Proof.
  intros Hnd HA HB HsA HsB HdA Hlt Heq Hpos Hdt Hsf.
  rewrite !progressGain_planet by assumption.
  unfold orbitSpeedRadians, ORBIT_SPEED_FACTOR. rewrite <- Heq.
  pose proof (keplerFactor_decreasing _ _ HdA Hlt) as Hk.
  pose proof PI_RGT_0 as Hpi.
  set (kA := keplerFactor (distanceFromSun A)) in *.
  set (kB := keplerFactor (distanceFromSun B)) in *.
  assert (H1 : orbitSpeed A * 50 * kB < orbitSpeed A * 50 * kA) by nra.
  assert (H2 : 0 < 2 * PI * sf * dt).
  { apply Rmult_lt_0_compat; [|exact Hdt]. apply Rmult_lt_0_compat; [lra | exact Hsf]. }
  apply Rlt_gt.
  replace (orbitSpeed A * 50 * kB / 360 * (2 * PI) * sf * dt)
    with (orbitSpeed A * 50 * kB * ((2 * PI * sf * dt) / 360)) by lra.
  replace (orbitSpeed A * 50 * kA / 360 * (2 * PI) * sf * dt)
    with (orbitSpeed A * 50 * kA * ((2 * PI * sf * dt) / 360)) by lra.
  apply Rmult_lt_compat_r; [lra | exact H1].
Qed.

Lemma C6_kepler_monotone_witness :
  progressGain [innerBody; outerBody] 1 1 1%nat (startObject [innerBody; outerBody]) innerBody
  > progressGain [innerBody; outerBody] 1 1 1%nat (startObject [innerBody; outerBody]) outerBody.
Proof.
  apply C6_kepler_monotone.
  - apply (bool_decide_unpack _). reflexivity.
  - apply elem_of_cons. by left.
  - apply elem_of_cons. right. apply elem_of_cons. by left.
  - reflexivity.
  - reflexivity.
  - unfold distanceFromSun. simpl. lra.
  - unfold distanceFromSun. simpl. lra.
  - reflexivity.
  - simpl. lra.
  - lra.
  - lra.
Defined.

(** *** Referential stability *)

Lemma updater_same_or_fresh planets sf dt fresh (prev : ProgressObject) :
  ((visitAll planets sf dt (entries prev)).2 = false
   /\ updater planets sf dt fresh prev = prev)
  \/ ((visitAll planets sf dt (entries prev)).2 = true
      /\ ref (updater planets sf dt fresh prev) = fresh).
Proof.
  unfold updater. destruct (visitAll planets sf dt (entries prev)) as [m [|]];
    simpl; [right | left]; by split.
Qed.

Lemma visitAll_flag planets sf dt (m : gmap string R) :
  NoDup (name <$> planets) ->
  (visitAll planets sf dt m).2 = true
  <-> exists p, p ∈ planets /\ m !! name p ≠ Some (assigned m sf dt p).
Proof.
  intros Hnd. unfold visitAll. rewrite fold_flag by exact Hnd. simpl.
  split; [intros [Hf | H]; [discriminate | exact H] | by right].
Qed.

(** A changed flag and a changed entry are the same thing. *)
Lemma changed_entry planets sf dt fresh (prev : ProgressObject) :
  NoDup (name <$> planets) ->
  (visitAll planets sf dt (entries prev)).2 = true
  <-> exists p, p ∈ planets
        /\ entries (updater planets sf dt fresh prev) !! name p ≠ entries prev !! name p.
Proof.
  intros Hnd. rewrite visitAll_flag by exact Hnd.
  split; intros (p & Hin & Hp); exists p; (split; [exact Hin|]).
  - rewrite updater_lookup_in by assumption. congruence.
  - rewrite updater_lookup_in in Hp by assumption. congruence.
Qed.

Lemma tracked_initial planets : tracked planets (initialProgress planets).
Proof.
  intros p Hin. rewrite (initialProgress_lookup_in planets p Hin).
  destruct (isSun p); [reflexivity | by eexists].
Qed.

Lemma tracked_updater planets sf dt fresh (prev : ProgressObject) :
  NoDup (name <$> planets) -> tracked planets (entries (updater planets sf dt fresh prev)).
Proof.
  intros Hnd p Hin. rewrite updater_lookup_in by assumption.
  unfold assigned. destruct (isSun p); [reflexivity | by eexists].
Qed.

Lemma run_tracked planets inputs (st : State) :
  NoDup (name <$> planets) ->
  tracked planets (entries (planetOrbitProgress st)) ->
  tracked planets (entries (planetOrbitProgress (run planets inputs st))).
Proof.
  intros Hnd. revert st. induction inputs as [|i inputs IH]; intros st Ht; [exact Ht|].
  rewrite run_cons. apply IH. simpl. by apply tracked_updater.
Qed.

(** The allocator stays ahead of the object in the state cell. *)
Lemma frame_ref_below planets t sf (st : State) :
  (ref (planetOrbitProgress st) < nextRef st)%nat ->
  (ref (planetOrbitProgress (frame planets t sf st)) < nextRef (frame planets t sf st))%nat.
Proof.
  intros Hlt. simpl.
  destruct (updater_same_or_fresh planets sf (t - lastElapsedTime st) (nextRef st)
              (planetOrbitProgress st)) as [[_ ->] | [_ ->]]; lia.
Qed.

Lemma run_ref_below planets inputs (st : State) :
  (ref (planetOrbitProgress st) < nextRef st)%nat ->
  (ref (planetOrbitProgress (run planets inputs st))
   < nextRef (run planets inputs st))%nat.
Proof.
  revert st. induction inputs as [|i inputs IH]; intros st Hlt; [exact Hlt|].
  rewrite run_cons. apply IH. by apply frame_ref_below.
Qed.

(** At speed factor 0 nothing tracked moves. *)
Lemma paused_quiet planets dt (m : gmap string R) :
  tracked planets m ->
  forall p, p ∈ planets -> m !! name p = Some (assigned m 0 dt p).
Proof.
  intros Ht p Hin. specialize (Ht p Hin). unfold assigned, newValue, orbitSpeedRadians.
  destruct (isSun p); [exact Ht|].
  destruct Ht as [v Hv]. rewrite Hv, orZero_Some. f_equal. lra.
Qed.

(** C7: at any point of a session, a frame puts a new object in the state
    cell exactly when the entry of some body changes; when no entry changes,
    and in particular whenever the speed factor is 0, the cell keeps the very
    object it held.  (Bodies are taken at a positive distance from the star:
    there the real-number product with a speed factor of 0 is the 0 the code
    computes.) *)
Theorem C7_referential_stability planets inputs (st0 : State) (t sf : R) :
  NoDup (name <$> planets) -> positiveOrbits planets ->
  entries (planetOrbitProgress st0) = initialProgress planets ->
  (ref (planetOrbitProgress st0) < nextRef st0)%nat ->
  let st := run planets inputs st0 in
  let prev := planetOrbitProgress st in
  let next := planetOrbitProgress (frame planets t sf st) in
  (ref next ≠ ref prev
   <-> exists p, p ∈ planets /\ entries next !! name p ≠ entries prev !! name p)
  /\ ((forall p, p ∈ planets -> entries next !! name p = entries prev !! name p)
      -> next = prev)
  /\ (sf = 0 -> next = prev).
Proof.
  intros Hnd Hpos Hinit Hlt st prev next.
  assert (Hbelow : (ref prev < nextRef st)%nat) by (by apply run_ref_below).
  assert (Htr : tracked planets (entries prev)).
  { apply run_tracked; [exact Hnd|]. rewrite Hinit. apply tracked_initial. }
  set (dt := t - lastElapsedTime st).
  change next with (updater planets sf dt (nextRef st) prev).
  pose proof (changed_entry planets sf dt (nextRef st) prev Hnd) as Hch.
  destruct (updater_same_or_fresh planets sf dt (nextRef st) prev)
    as [[Hflag Hsame] | [Hflag Hfresh]].
  - split; [|split].
    + rewrite <- Hch, Hflag, Hsame. split; [congruence | discriminate].
    + intros _. exact Hsame.
    + intros _. exact Hsame.
  - split; [|split].
    + rewrite <- Hch, Hflag, Hfresh. split; [reflexivity | intros _; lia].
    + intros Hall. apply Hch in Hflag as (p & Hin & Hp). by destruct (Hp (Hall p Hin)).
    + intros ->. apply (visitAll_flag planets 0 dt (entries prev) Hnd) in Hflag
        as (p & Hin & Hp).
      by destruct (Hp (paused_quiet planets dt (entries prev) Htr p Hin)).
Qed.

Lemma scenarioA_positiveOrbits : positiveOrbits scenarioA.
Proof.
  intros p Hin Hs.
  apply elem_of_cons in Hin as [-> | Hin]; [discriminate|].
  apply elem_of_cons in Hin as [-> | Hin]; [|by apply elem_of_nil in Hin].
  unfold distanceFromSun. simpl. lra.
Qed.

Lemma C7_referential_stability_witness :
  planetOrbitProgress (frame scenarioA 9 0 (run scenarioA [(1, 1); (2, 5)] (startState scenarioA)))
  = planetOrbitProgress (run scenarioA [(1, 1); (2, 5)] (startState scenarioA)).
Proof.
  apply (C7_referential_stability scenarioA [(1, 1); (2, 5)] (startState scenarioA) 9 0).
  - exact scenarioA_names.
  - exact scenarioA_positiveOrbits.
  - reflexivity.
  - simpl. lia.
  - reflexivity.
Defined.

(** *** Replay *)

Lemma frame_entries planets t sf (st : State) :
  entries (planetOrbitProgress (frame planets t sf st))
  = (visitAll planets sf (t - lastElapsedTime st) (entries (planetOrbitProgress st))).1.
Proof. simpl. apply updater_entries. Qed.

Lemma replay_entries planets inputs1 :
  forall inputs2 (st1 st2 : State),
    entries (planetOrbitProgress st1) = entries (planetOrbitProgress st2) ->
    deltaTimes (lastElapsedTime st1) inputs1 = deltaTimes (lastElapsedTime st2) inputs2 ->
    entries (planetOrbitProgress (run planets inputs1 st1))
    = entries (planetOrbitProgress (run planets inputs2 st2)).
Proof.
  induction inputs1 as [|[t1 sf1] inputs1 IH]; intros [|[t2 sf2] inputs2] st1 st2 He Hd;
    simpl in Hd; try discriminate; [exact He|].
  injection Hd as Hdt Hsf Hrest.
  rewrite !run_cons. apply IH.
  - rewrite !frame_entries. simpl. by rewrite Hdt, Hsf, He.
  - exact Hrest.
Qed.

(** C9: two runs that start from the same progress entries and see the same
    sequence of [deltaTime] and speed factor end with the same progress
    entries and draw every planet at the same position (whatever their
    clocks read and whichever objects carry the entries). *)
Theorem C9_replay_deterministic planets inputs1 inputs2 (st1 st2 : State) :
  entries (planetOrbitProgress st1) = entries (planetOrbitProgress st2) ->
  deltaTimes (lastElapsedTime st1) inputs1 = deltaTimes (lastElapsedTime st2) inputs2 ->
  entries (planetOrbitProgress (run planets inputs1 st1))
  = entries (planetOrbitProgress (run planets inputs2 st2))
  /\ Planet.renderedPositions planets (entries (planetOrbitProgress (run planets inputs1 st1)))
     = Planet.renderedPositions planets (entries (planetOrbitProgress (run planets inputs2 st2))).
Proof.
  intros He Hd.
  pose proof (replay_entries planets inputs1 inputs2 st1 st2 He Hd) as E.
  split; [exact E | by rewrite E].
Qed.

Lemma C9_replay_deterministic_witness :
  entries (planetOrbitProgress (run scenarioA [(1, 1); (3, 2)] (startState scenarioA)))
  = entries (planetOrbitProgress
               (run scenarioA [(11, 1); (13, 2)]
                  {| lastElapsedTime := 10;
                     planetOrbitProgress := {| ref := 7; entries := initialProgress scenarioA |};
                     nextRef := 8 |})).
Proof.
  apply (C9_replay_deterministic scenarioA [(1, 1); (3, 2)] [(11, 1); (13, 2)]).
  - reflexivity.
  - cbn. f_equal; [f_equal; lra | f_equal; f_equal; lra].
Defined.

End OrbitClaims.

(** ** Vectors *)

Module Vector3Facts.
Import Vector3.

Lemma distanceTo_self (a : Vec3) : distanceTo a a = 0.
Proof.
  unfold distanceTo, length, sub. simpl.
  replace ((x a - x a) * (x a - x a) + (y a - y a) * (y a - y a)
           + (z a - z a) * (z a - z a)) with 0 by lra.
  apply sqrt_0.
Qed.

Lemma lerp_self (a : Vec3) (alpha : R) : lerp a a alpha = a.
Proof. destruct a as [ax ay az]. unfold lerp. simpl. f_equal; lra. Qed.

End Vector3Facts.

(** ** The camera controller *)

Module CameraClaims.
Import CameraController Reference Samples Vector3Facts.

Section Frames.
Variable orbitControlsUpdate : OrbitControls -> Vec3 -> Vec3.
Variable registry : gmap string Vec3.

Local Abbreviation update := (updateCameraState orbitControlsUpdate).

(** A frame in ZOOMING_IN, with the selection resolved to [pos]. *)
Lemma zoom_frame (sel : CelestialSelection) (pos : Vec3) (r : Rig) :
  getPlanetPosition (Some sel) registry = Some pos ->
  let desired := zoomTargetPosition pos sel in
  let p := Vector3.lerp (cameraPosition r) desired CAMERA.LERP_FACTOR in
  let t := Vector3.lerp (invisibleTarget r) pos CAMERA.FAST_LERP_FACTOR in
  let r' := update (Some sel) registry ZOOMING_IN r in
  invisibleTarget r' = t /\ cameraLookAt r' = t
  /\ (reachedPosition sel p desired && reachedLookAt sel t pos = true ->
      cameraState r' = DETAIL_VIEW /\ target (controls r') = t)
  /\ (reachedPosition sel p desired && reachedLookAt sel t pos = false ->
      cameraState r' = cameraState r /\ cameraPosition r' = p).
Proof.
  intros Hpos desired p t r'. subst r'.
  unfold updateCameraState, caseZoomingIn. rewrite Hpos.
  fold desired. fold p. fold t.
  destruct (reachedPosition sel p desired && reachedLookAt sel t pos); simpl;
    repeat split; (reflexivity || discriminate).
Qed.

(** A frame in ZOOMING_IN without a resolvable position changes nothing. *)
Lemma zoom_frame_unresolved (sel : option CelestialSelection) (r : Rig) :
  getPlanetPosition sel registry = None ->
  update sel registry ZOOMING_IN r = r.
Proof.
  intros Hpos. unfold updateCameraState, caseZoomingIn.
  destruct sel as [s|]; [by rewrite Hpos | reflexivity].
Qed.

End Frames.

Lemma zoomTargetPosition_unfold (pos : Vec3) (sel : CelestialSelection) :
  zoomTargetPosition pos sel
  = Vector3.add pos
      (if selIsSun sel
       then Vector3.multiplyScalar DISTANCE_FACTORS.SUN.OFFSET
              (selRadius sel * DISTANCE_FACTORS.SUN.SCALE)
       else calculateCameraOffset pos sel).
Proof. unfold zoomTargetPosition. by destruct (selIsSun sel). Qed.

(** Where [getPlanetPosition] takes the position from, by kind of body. *)
Lemma getPlanetPosition_source registry (sel : CelestialSelection) (pos : Vec3) :
  getPlanetPosition (Some sel) registry = Some pos ->
  match sel with
  | SelPlanet b => if isSun b then pos = Vector3.zero else registry !! name b = Some pos
  | SelMoon m =>
      match moonPosition m with
      | Some stored => pos = stored
      | None => registry !! moonName m = Some pos
      end
  end.
Proof.
  unfold getPlanetPosition. destruct sel as [b | m]; simpl.
  - destruct (isSun b); [congruence | tauto].
  - destruct m as [n rad par [stored|]]; simpl; [congruence | tauto].
Qed.

Lemma earth_position : getPlanetPosition (Some (SelPlanet earth)) registryA = Some (Vector3.mk 8 0 0).
Proof. reflexivity. Qed.

Lemma luna_position : getPlanetPosition (Some (SelMoon luna)) registryA = Some (Vector3.mk 0.5 0 0).
Proof. reflexivity. Qed.

(** C2, as the specification states it, fails for a moon: the registry has
    no position for the selected moon, and still the frame moves the look-at
    point, toward the position stored in the selection. *)
Lemma C2_moon_lookat_counterexample :
  registryA !! selName (SelMoon luna) = None
  /\ invisibleTarget
       (updateCameraState noClamp (Some (SelMoon luna)) registryA ZOOMING_IN
          (rigAt ZOOMING_IN CAMERA.HOME_POSITION Vector3.zero))
     = Vector3.mk 0.02 0 0.
Proof.
  split; [reflexivity|].
  destruct (zoom_frame noClamp registryA (SelMoon luna) (Vector3.mk 0.5 0 0)
              (rigAt ZOOMING_IN CAMERA.HOME_POSITION Vector3.zero) luna_position)
    as (Ht & _).
  rewrite Ht. unfold Vector3.lerp, CAMERA.FAST_LERP_FACTOR. simpl. f_equal; lra.
Qed.

(** C2, amended: in ZOOMING_IN, with the selection resolved to a position
    (the origin for the star, the position stored in the selection for a
    moon, the live registry entry for any other body), each frame aims the
    look-at point at that position and the camera at that position plus the
    offset of the body's class, and the state becomes DETAIL_VIEW exactly
    when, after this frame's interpolation, the camera error and the look-at
    error are both below [radius * POSITION_EPSILON]. *)
Theorem C2_zooming_in_frame (orbitControlsUpdate : OrbitControls -> Vec3 -> Vec3)
    (registry : gmap string Vec3) (sel : CelestialSelection) (pos : Vec3) (r : Rig) :
  cameraState r = ZOOMING_IN ->
  getPlanetPosition (Some sel) registry = Some pos ->
  let desired :=
    Vector3.add pos
      (if selIsSun sel
       then Vector3.multiplyScalar DISTANCE_FACTORS.SUN.OFFSET
              (selRadius sel * DISTANCE_FACTORS.SUN.SCALE)
       else calculateCameraOffset pos sel) in
  let p := Vector3.lerp (cameraPosition r) desired CAMERA.LERP_FACTOR in
  let t := Vector3.lerp (invisibleTarget r) pos CAMERA.FAST_LERP_FACTOR in
  let r' := updateCameraState orbitControlsUpdate (Some sel) registry ZOOMING_IN r in
  match sel with
  | SelPlanet b => if isSun b then pos = Vector3.zero else registry !! name b = Some pos
  | SelMoon m =>
      match moonPosition m with
      | Some stored => pos = stored
      | None => registry !! moonName m = Some pos
      end
  end
  /\ invisibleTarget r' = t /\ cameraLookAt r' = t
  /\ (cameraState r' = DETAIL_VIEW
      <-> Vector3.distanceTo p desired < selRadius sel * CAMERA.POSITION_EPSILON
          /\ Vector3.distanceTo t pos < selRadius sel * CAMERA.POSITION_EPSILON)
  /\ (cameraState r' <> DETAIL_VIEW -> cameraState r' = ZOOMING_IN /\ cameraPosition r' = p).
Proof.
  intros Hstate Hpos desired p t r'.
  pose proof (zoom_frame orbitControlsUpdate registry sel pos r Hpos) as Hz.
  cbv zeta in Hz. rewrite zoomTargetPosition_unfold in Hz.
  fold desired in Hz. fold p in Hz. fold t in Hz. fold r' in Hz.
  destruct Hz as (Ht & Hl & Hyes & Hno).
  split; [by apply getPlanetPosition_source|].
  split; [exact Ht|]. split; [exact Hl|].
  unfold reachedPosition, reachedLookAt in Hyes, Hno.
  destruct (bool_decide (Vector3.distanceTo p desired
                         < selRadius sel * CAMERA.POSITION_EPSILON)
            && bool_decide (Vector3.distanceTo t pos
                            < selRadius sel * CAMERA.POSITION_EPSILON)) eqn:E.
  - destruct (Hyes eq_refl) as [Hs _].
    apply andb_true_iff in E as [E1 E2].
    apply bool_decide_eq_true in E1, E2.
    split; [split; [intros _; by split | intros _; exact Hs]|].
    intros Hne. by destruct (Hne Hs).
  - destruct (Hno eq_refl) as [Hs Hp]. rewrite Hstate in Hs.
    split.
    + split; [intros Hd; rewrite Hs in Hd; discriminate|].
      intros [H1 H2]. apply andb_false_iff in E as [E | E];
        apply bool_decide_eq_false in E; contradiction.
    + intros _. by split.
Qed.

(** The transition does happen: a rig already on the aimed pose moves to
    DETAIL_VIEW. *)
Example zoom_arrives :
  cameraState
    (updateCameraState noClamp (Some (SelPlanet earth)) registryA ZOOMING_IN
       (rigAt ZOOMING_IN (zoomTargetPosition (Vector3.mk 8 0 0) (SelPlanet earth))
          (Vector3.mk 8 0 0)))
  = DETAIL_VIEW.
Proof.
  destruct (zoom_frame noClamp registryA (SelPlanet earth) (Vector3.mk 8 0 0)
              (rigAt ZOOMING_IN (zoomTargetPosition (Vector3.mk 8 0 0) (SelPlanet earth))
                 (Vector3.mk 8 0 0)) earth_position) as (_ & _ & Hyes & _).
  apply Hyes. unfold reachedPosition, reachedLookAt, rigAt. simpl.
  rewrite !lerp_self, !distanceTo_self.
  unfold CAMERA.POSITION_EPSILON.
  rewrite !bool_decide_eq_true_2 by lra. reflexivity.
Qed.

Lemma C2_zooming_in_frame_witness :
  invisibleTarget
    (updateCameraState noClamp (Some (SelPlanet earth)) registryA ZOOMING_IN
       (rigAt ZOOMING_IN CAMERA.HOME_POSITION Vector3.zero))
  = Vector3.lerp Vector3.zero (Vector3.mk 8 0 0) CAMERA.FAST_LERP_FACTOR.
Proof.
  apply (C2_zooming_in_frame noClamp registryA (SelPlanet earth) (Vector3.mk 8 0 0)
           (rigAt ZOOMING_IN CAMERA.HOME_POSITION Vector3.zero)).
  - reflexivity.
  - reflexivity.
Defined.

(** C3, as the specification states it, fails: with the selection cleared,
    and likewise with the registry entry of the selected body removed, a
    frame in ZOOMING_IN leaves the state at ZOOMING_IN. *)
Lemma C3_no_implicit_home_counterexample :
  (getPlanetPosition None registryA = None
   /\ cameraState (frame noClamp None registryA true
                     (rigAt ZOOMING_IN CAMERA.HOME_POSITION Vector3.zero))
      <> MOVING_TO_HOME)
  /\ (getPlanetPosition (Some (SelPlanet earth)) (delete "Earth"%string registryA) = None
      /\ cameraState (frame noClamp (Some (SelPlanet earth)) (delete "Earth"%string registryA)
                        true (rigAt ZOOMING_IN CAMERA.HOME_POSITION Vector3.zero))
         <> MOVING_TO_HOME).
Proof.
  split; (split; [reflexivity|]).
  - unfold frame. simpl. discriminate.
  - unfold frame. cbn [cameraState rigAt].
    rewrite zoom_frame_unresolved by reflexivity. discriminate.
Qed.

(** C3, amended: in ZOOMING_IN, when the selection is cleared or the position
    of the selected body cannot be resolved, a frame changes nothing: no
    exception, the state is still ZOOMING_IN, camera, look-at point and
    controls are as they were, and so after any number of frames. *)
Theorem C3_unresolved_zoom_is_noop (orbitControlsUpdate : OrbitControls -> Vec3 -> Vec3)
    (registry : gmap string Vec3) (sel : option CelestialSelection)
    (mounted : bool) (r : Rig) (n : nat) :
  cameraState r = ZOOMING_IN ->
  sel = None \/ getPlanetPosition sel registry = None ->
  frame orbitControlsUpdate sel registry mounted r = r
  /\ Nat.iter n (frame orbitControlsUpdate sel registry mounted) r = r.
Proof.
  intros Hstate Hsel.
  assert (Hpos : getPlanetPosition sel registry = None).
  { destruct Hsel as [-> | Hp]; [reflexivity | exact Hp]. }
  assert (Hone : frame orbitControlsUpdate sel registry mounted r = r).
  { unfold frame. destruct mounted; [|reflexivity].
    rewrite Hstate. by apply zoom_frame_unresolved. }
  split; [exact Hone|].
  induction n as [|n IH]; [reflexivity|]. simpl. by rewrite IH.
Qed.

Lemma C3_unresolved_zoom_witness :
  frame noClamp (Some (SelPlanet earth)) (delete "Earth"%string registryA) true
    (rigAt ZOOMING_IN CAMERA.HOME_POSITION Vector3.zero)
  = rigAt ZOOMING_IN CAMERA.HOME_POSITION Vector3.zero.
Proof.
  apply (C3_unresolved_zoom_is_noop noClamp (delete "Earth"%string registryA)
           (Some (SelPlanet earth)) true
           (rigAt ZOOMING_IN CAMERA.HOME_POSITION Vector3.zero) 3).
  - reflexivity.
  - right. reflexivity.
Defined.

(** *** DETAIL_VIEW *)

Lemma detail_frame (orbitControlsUpdate : OrbitControls -> Vec3 -> Vec3)
    (registry : gmap string Vec3) (sel : CelestialSelection) (pos : Vec3) (r : Rig) :
  getPlanetPosition (Some sel) registry = Some pos ->
  controls (updateCameraState orbitControlsUpdate (Some sel) registry DETAIL_VIEW r)
  = {| enabled := true;
       minDistance := selRadius sel * fst (distanceConfig sel);
       maxDistance := Finite (selRadius sel * snd (distanceConfig sel));
       target := pos |}.
Proof. intros Hpos. unfold updateCameraState, caseDetailView. by rewrite Hpos. Qed.

(** C8, as the specification states it, fails in its last part: a moon and a
    default planet of the same radius 1 get the limits [1.5, 15] and
    [1.2, 3]; the moon's interval is neither inside the planet's nor
    narrower, and its upper limit is five times the planet's. *)
Lemma C8_moon_limits_counterexample :
  let moonControls :=
    controls (updateCameraState noClamp (Some (SelMoon luna)) registryA DETAIL_VIEW
                (rigAt DETAIL_VIEW CAMERA.HOME_POSITION Vector3.zero)) in
  let planetControls :=
    controls (updateCameraState noClamp (Some (SelPlanet earth)) registryA DETAIL_VIEW
                (rigAt DETAIL_VIEW CAMERA.HOME_POSITION Vector3.zero)) in
  selRadius (SelMoon luna) = selRadius (SelPlanet earth)
  /\ minDistance moonControls = 1.5 /\ maxDistance moonControls = Finite 15
  /\ minDistance planetControls = 1.2 /\ maxDistance planetControls = Finite 3
  /\ ~ (snd (distanceConfig (SelMoon luna)) <= snd (distanceConfig (SelPlanet earth)))
  /\ ~ (snd (distanceConfig (SelMoon luna)) - fst (distanceConfig (SelMoon luna))
        <= snd (distanceConfig (SelPlanet earth)) - fst (distanceConfig (SelPlanet earth))).
Proof.
  intros moonControls planetControls. subst moonControls planetControls.
  rewrite (detail_frame noClamp registryA _ _ _ luna_position).
  rewrite (detail_frame noClamp registryA _ _ _ earth_position).
  unfold distanceConfig, DISTANCE_FACTORS.DEFAULT_PLANET.MIN,
    DISTANCE_FACTORS.DEFAULT_PLANET.MAX. simpl.
  repeat split; try (f_equal; lra); lra.
Qed.

(** C8, amended: in DETAIL_VIEW with a resolvable selection, a frame enables
    manual control, makes the body's position the controls' target and sets
    the distance limits to [radius * MIN] and [radius * MAX], the factors
    being (1.5, 10) for the star, (1.5, 15) for a moon, (1.2, 5) for Jupiter
    and (1.2, 3) for any other planet; both factors of a moon are above those
    of a default planet. *)
Theorem C8_detail_view_limits (orbitControlsUpdate : OrbitControls -> Vec3 -> Vec3)
    (registry : gmap string Vec3) (sel : CelestialSelection) (pos : Vec3) (r : Rig) :
  getPlanetPosition (Some sel) registry = Some pos ->
  let r' := updateCameraState orbitControlsUpdate (Some sel) registry DETAIL_VIEW r in
  let factors :=
    if selIsSun sel then (1.5, 10)
    else if selIsMoon sel then (1.5, 15)
    else if bool_decide (selName sel = "Jupiter"%string) then (1.2, 5)
    else (1.2, 3) in
  enabled (controls r') = true
  /\ target (controls r') = pos
  /\ minDistance (controls r') = selRadius sel * fst factors
  /\ maxDistance (controls r') = Finite (selRadius sel * snd factors)
  /\ cameraState r' = cameraState r
  /\ (forall (m : MoonSelection) (b : PlanetData),
        isSun b = false -> name b ≠ "Jupiter"%string ->
        fst (distanceConfig (SelPlanet b)) < fst (distanceConfig (SelMoon m))
        /\ snd (distanceConfig (SelPlanet b)) < snd (distanceConfig (SelMoon m))).
Proof.
  intros Hpos r' factors.
  assert (Hf : distanceConfig sel = factors).
  { unfold distanceConfig, factors, DISTANCE_FACTORS.SUN.MIN, DISTANCE_FACTORS.SUN.MAX,
      DISTANCE_FACTORS.JUPITER.MIN, DISTANCE_FACTORS.JUPITER.MAX,
      DISTANCE_FACTORS.DEFAULT_PLANET.MIN, DISTANCE_FACTORS.DEFAULT_PLANET.MAX.
    reflexivity. }
  pose proof (detail_frame orbitControlsUpdate registry sel pos r Hpos) as Hc.
  fold r' in Hc. rewrite Hf in Hc. rewrite Hc. simpl.
  split; [reflexivity|]. split; [reflexivity|]. split; [reflexivity|].
  split; [reflexivity|]. split.
  - subst r'. unfold updateCameraState, caseDetailView. by rewrite Hpos.
  - intros m b Hb Hname. unfold distanceConfig. simpl. rewrite Hb.
    rewrite bool_decide_eq_false_2 by exact Hname.
    unfold DISTANCE_FACTORS.DEFAULT_PLANET.MIN, DISTANCE_FACTORS.DEFAULT_PLANET.MAX.
    simpl. split; lra.
Qed.

Lemma C8_detail_view_limits_witness :
  controls (updateCameraState noClamp (Some (SelPlanet earth)) registryA DETAIL_VIEW
              (rigAt DETAIL_VIEW CAMERA.HOME_POSITION Vector3.zero))
  = {| enabled := true; minDistance := 1 * 1.2; maxDistance := Finite (1 * 3);
       target := Vector3.mk 8 0 0 |}.
Proof.
  destruct (C8_detail_view_limits noClamp registryA (SelPlanet earth) (Vector3.mk 8 0 0)
              (rigAt DETAIL_VIEW CAMERA.HOME_POSITION Vector3.zero) eq_refl)
    as (He & Ht & Hmin & Hmax & _).
  destruct (controls _) as [e mn mx tg]. simpl in *. by subst.
Defined.

End CameraClaims.

(** ** The scene loop and the input handlers *)

Module SceneClaims.
Import CameraController SceneLoop Reference Samples Vector3Facts.

Section Home.
Context {Store : Type} `{SpeedControlContextType Store}.
Variable orbitControlsUpdate : OrbitControls -> Vec3 -> Vec3.

Lemma cameraFrame_selection (s : Scene Store) :
  selectedPlanet (cameraFrame orbitControlsUpdate s) = selectedPlanet s.
Proof. reflexivity. Qed.

Lemma cameraFrames_selection (n : nat) (s : Scene Store) :
  selectedPlanet (cameraFrames orbitControlsUpdate n s) = selectedPlanet s.
Proof.
  induction n as [|n IH]; [reflexivity|].
  change (cameraFrames orbitControlsUpdate (S n) s)
    with (cameraFrame orbitControlsUpdate (cameraFrames orbitControlsUpdate n s)).
  by rewrite cameraFrame_selection.
Qed.

(** A frame in MOVING_TO_HOME. *)
Lemma home_frame (sel : option CelestialSelection) (registry : gmap string Vec3) (r : Rig) :
  let p := Vector3.lerp (cameraPosition r) CAMERA.HOME_POSITION CAMERA.LERP_FACTOR in
  let t := Vector3.lerp (invisibleTarget r) Vector3.zero CAMERA.LERP_FACTOR in
  let r' := updateCameraState orbitControlsUpdate sel registry MOVING_TO_HOME r in
  (Vector3.distanceTo p CAMERA.HOME_POSITION < CAMERA.POSITION_EPSILON
   /\ Vector3.distanceTo t Vector3.zero < CAMERA.POSITION_EPSILON ->
   cameraState r' = FREE /\ invisibleTarget r' = Vector3.zero
   /\ target (controls r') = Vector3.zero /\ maxDistance (controls r') = Infinity
   /\ cameraPosition r' = orbitControlsUpdate (controls r') CAMERA.HOME_POSITION)
  /\ (~ (Vector3.distanceTo p CAMERA.HOME_POSITION < CAMERA.POSITION_EPSILON
         /\ Vector3.distanceTo t Vector3.zero < CAMERA.POSITION_EPSILON) ->
      cameraState r' = cameraState r /\ cameraPosition r' = p /\ invisibleTarget r' = t).
Proof.
  intros p t r'. subst r'. unfold updateCameraState, caseMovingToHome, homePosition.
  fold p. fold t.
  destruct (decide (Vector3.distanceTo p CAMERA.HOME_POSITION < CAMERA.POSITION_EPSILON))
    as [H1 | H1];
  destruct (decide (Vector3.distanceTo t Vector3.zero < CAMERA.POSITION_EPSILON))
    as [H2 | H2].
  - rewrite !bool_decide_eq_true_2 by assumption. simpl.
    split; [intros _; by repeat split | intros Hn; by destruct Hn].
  - rewrite (bool_decide_eq_false_2 _ H2), andb_false_r.
    split; [intros [_ Hc]; contradiction | intros _; by repeat split].
  - rewrite (bool_decide_eq_false_2 _ H1). simpl.
    split; [intros [Hc _]; contradiction | intros _; by repeat split].
  - rewrite (bool_decide_eq_false_2 _ H1). simpl.
    split; [intros [Hc _]; contradiction | intros _; by repeat split].
Qed.

(** *** What a session reaches *)

(** A frame never enters MOVING_TO_HOME: a rig that is in that state after
    the frame was in it before. *)
Lemma frame_into_home (sel : option CelestialSelection) (registry : gmap string Vec3)
    (mounted : bool) (r : Rig) :
  cameraState (CameraController.frame orbitControlsUpdate sel registry mounted r)
  = MOVING_TO_HOME ->
  cameraState r = MOVING_TO_HOME.
Proof.
  unfold CameraController.frame. destruct mounted; [|done].
  destruct (cameraState r) eqn:Hs; [| | | |done];
    unfold updateCameraState, caseFree, caseDetailView, caseIntroAnimation, caseZoomingIn;
    repeat case_match; simpl; rewrite ?Hs; congruence.
Qed.

End Home.

Section Reach.
Context {Store : Type} `{SpeedControlContextType Store}.
Variable planetsData : list PlanetData.
Variable moonId : MoonSelection -> option Z.

Lemma homeward_goHome (s : Scene Store) : Session.homeward (goHome s).
Proof. by intros _. Qed.

Lemma homeward_selectPlanet (planet : PlanetData) (s : Scene Store) :
  Session.homeward (selectPlanet planet s).
Proof. intros Hs. discriminate Hs. Qed.

Lemma homeward_setSpeed (v : R) (s : Scene Store) :
  Session.homeward s -> Session.homeward (KeyboardHandler.setSpeed v s).
Proof. intros Hinv. exact Hinv. Qed.

Lemma homeward_exitView (s : Scene Store) : Session.homeward s -> Session.homeward (exitView s).
Proof.
  intros Hinv. unfold exitView. repeat case_match; auto using homeward_goHome.
Qed.

Lemma homeward_selectPlanetByIndex (index : Z) (s : Scene Store) :
  Session.homeward s -> Session.homeward (KeyboardHandler.selectPlanetByIndex planetsData index s).
Proof.
  intros Hinv. unfold KeyboardHandler.selectPlanetByIndex.
  repeat case_match; auto using homeward_selectPlanet.
Qed.

Lemma homeward_handleKeyDown (typing : bool) (code : string) (s : Scene Store) :
  Session.homeward s ->
  Session.homeward (fst (KeyboardHandler.handleKeyDown planetsData moonId typing code s)).
Proof.
  intros Hinv.
  unfold KeyboardHandler.handleKeyDown, KeyboardHandler.arrowLeft,
    KeyboardHandler.arrowRight, KeyboardHandler.cycleSpeedUp, KeyboardHandler.cycleSpeedDown.
  repeat case_match; cbn [fst];
    auto using homeward_goHome, homeward_exitView, homeward_setSpeed,
      homeward_selectPlanetByIndex.
Qed.

Lemma homeward_handleSelect (planetName : string) (s : Scene Store) :
  Session.homeward s -> Session.homeward (PlanetMenu.handleSelect planetsData moonId planetName s).
Proof.
  intros Hinv. unfold PlanetMenu.handleSelect.
  repeat case_match; auto using homeward_selectPlanet.
Qed.

Lemma homeward_handleTouchEnd (deltaX deltaY deltaTime : R) (s : Scene Store) :
  Session.homeward s ->
  Session.homeward (MobileGestureHandler.handleTouchEnd planetsData moonId deltaX deltaY deltaTime s).
Proof.
  intros Hinv. unfold MobileGestureHandler.handleTouchEnd. cbv zeta.
  repeat case_match; auto using homeward_goHome, homeward_selectPlanet.
Qed.

Lemma homeward_cameraFrame (update : OrbitControls -> Vec3 -> Vec3) (s : Scene Store) :
  Session.homeward s -> Session.homeward (cameraFrame update s).
Proof.
  intros Hinv Hs. apply frame_into_home in Hs. exact (Hinv Hs).
Qed.

(** Every event keeps it. *)
Lemma homeward_handle (e : Session.Event) (s : Scene Store) :
  Session.homeward s -> Session.homeward (Session.handle planetsData moonId e s).
Proof.
  intros Hinv. destruct e; cbn [Session.handle].
  - by apply homeward_cameraFrame.
  - by apply homeward_handleKeyDown.
  - by apply homeward_handleSelect.
  - by apply homeward_handleTouchEnd.
  - unfold Session.handlePlanetClick. case_match; auto using homeward_selectPlanet.
  - unfold Session.handleSunClick. case_match; auto using homeward_selectPlanet.
  - intros Hs. discriminate Hs.
  - apply homeward_goHome.
  - apply homeward_goHome.
  - exact Hinv.
  - exact Hinv.
  - exact Hinv.
Qed.

Lemma homeward_session (events : list Session.Event) (s : Scene Store) :
  Session.homeward s -> Session.homeward (Session.session planetsData moonId events s).
Proof.
  revert s. induction events as [|e events IH]; intros s Hinv; [exact Hinv|].
  apply IH. by apply homeward_handle.
Qed.

(** C4: a session starts with nothing selected ([useState(null)] in
    SelectedPlanetContext.js) and is any sequence of frames, key presses,
    menu choices, gestures, clicks and writes of the registry and the speed
    store.  At whatever scene it reaches in MOVING_TO_HOME, on the frame after
    whose interpolation the camera is within the fixed epsilon
    [CAMERA.POSITION_EPSILON] of the home position and the look-at point
    within it of the origin, the state becomes FREE and the selection is None
    (the look-at point is put on the origin and the distance limit lifted);
    no other frame leaves MOVING_TO_HOME.  The selection is None before that
    frame too: each handler that sets MOVING_TO_HOME clears the selection in
    the same call, each handler that selects a body sets ZOOMING_IN, and the
    controller only reads the selection. *)
Theorem C4_home_convergence (s0 : Scene Store) (events : list Session.Event)
    (orbitControlsUpdate : OrbitControls -> Vec3 -> Vec3) :
  selectedPlanet s0 = None ->
  let s := Session.session planetsData moonId events s0 in
  controlsMounted s = true ->
  cameraState (rig s) = MOVING_TO_HOME ->
  let p := Vector3.lerp (cameraPosition (rig s)) CAMERA.HOME_POSITION CAMERA.LERP_FACTOR in
  let t := Vector3.lerp (invisibleTarget (rig s)) Vector3.zero CAMERA.LERP_FACTOR in
  let s' := Session.handle planetsData moonId (Session.Frame orbitControlsUpdate) s in
  (Vector3.distanceTo p CAMERA.HOME_POSITION < CAMERA.POSITION_EPSILON
   /\ Vector3.distanceTo t Vector3.zero < CAMERA.POSITION_EPSILON ->
   selectedPlanet s' = None /\ cameraState (rig s') = FREE
   /\ invisibleTarget (rig s') = Vector3.zero
   /\ maxDistance (controls (rig s')) = Infinity)
  /\ (cameraState (rig s') = FREE
      <-> Vector3.distanceTo p CAMERA.HOME_POSITION < CAMERA.POSITION_EPSILON
          /\ Vector3.distanceTo t Vector3.zero < CAMERA.POSITION_EPSILON)
  /\ (cameraState (rig s') = FREE \/ cameraState (rig s') = MOVING_TO_HOME)
  /\ selectedPlanet s = None
  /\ selectedPlanet s' = None.
Proof.
  intros H0 s Hm Hstate p t s'.
  assert (Hsel : selectedPlanet s = None).
  { apply (homeward_session events s0); [intros _; exact H0 | exact Hstate]. }
  assert (Hsel' : selectedPlanet s' = None) by exact Hsel.
  assert (Hr : rig s' = updateCameraState orbitControlsUpdate (selectedPlanet s)
                         (planetPositions s) MOVING_TO_HOME (rig s)).
  { subst s'. cbn [Session.handle]. unfold cameraFrame, frame. simpl.
    by rewrite Hm, Hstate. }
  pose proof (home_frame orbitControlsUpdate (selectedPlanet s) (planetPositions s) (rig s))
    as Hh.
  cbv zeta in Hh. fold p in Hh. fold t in Hh. rewrite <- Hr in Hh.
  destruct Hh as [Hyes Hno].
  destruct (decide (Vector3.distanceTo p CAMERA.HOME_POSITION < CAMERA.POSITION_EPSILON
                    /\ Vector3.distanceTo t Vector3.zero < CAMERA.POSITION_EPSILON))
    as [Hc | Hc].
  - destruct (Hyes Hc) as (Hs & Ht & _ & Hmax & _).
    split; [intros _; by repeat split|].
    split; [split; [intros _; exact Hc | intros _; exact Hs]|].
    split; [by left|]. by split.
  - destruct (Hno Hc) as (Hs & _). rewrite Hstate in Hs.
    split; [intros Hc'; contradiction|].
    split; [split; [intros Hf; rewrite Hs in Hf; discriminate | intros Hc'; contradiction]|].
    split; [by right|]. by split.
Qed.

End Reach.

Lemma home_rest_converged :
  Vector3.distanceTo
    (Vector3.lerp CAMERA.HOME_POSITION CAMERA.HOME_POSITION CAMERA.LERP_FACTOR)
    CAMERA.HOME_POSITION < CAMERA.POSITION_EPSILON
  /\ Vector3.distanceTo (Vector3.lerp Vector3.zero Vector3.zero CAMERA.LERP_FACTOR)
       Vector3.zero < CAMERA.POSITION_EPSILON.
Proof.
  rewrite !lerp_self, !distanceTo_self. unfold CAMERA.POSITION_EPSILON. split; lra.
Qed.

(** Earth is clicked in the free view and the Home key pressed at once, with
    the camera still at the home position: the next frame ends the return
    with nothing selected. *)
Lemma C4_home_convergence_witness :
  let s0 := sceneOf None registryA (rigAt FREE CAMERA.HOME_POSITION Vector3.zero) in
  let s := Session.session scenarioA (fun _ => None)
             [Session.PlanetClick 3; Session.KeyDown false "KeyH"] s0 in
  let s' := Session.handle scenarioA (fun _ => None) (Session.Frame noClamp) s in
  selectedPlanet s' = None /\ cameraState (rig s') = FREE.
Proof.
  intros s0 s s'.
  destruct (C4_home_convergence scenarioA (fun _ => None) s0
              [Session.PlanetClick 3; Session.KeyDown false "KeyH"] noClamp
              eq_refl eq_refl eq_refl) as (Hconv & _).
  destruct (Hconv home_rest_converged) as (Hsel & Hstate & _).
  split; [exact Hsel | exact Hstate].
Defined.

End SceneClaims.

(** ** The speed control *)

Module SpeedClaims.
Import SpeedControl Samples.

(** C10: while the camera state is ZOOMING_IN or DETAIL_VIEW, the cycle
    action of the speed control leaves the speed store as it is: no call of
    [setSpeedFactor], the user's speed factor is unchanged. *)
Theorem C10_cycle_locked {Store : Type} `{SpeedControlContextType Store}
    (state : CameraState) (store : Store) :
  state = ZOOMING_IN \/ state = DETAIL_VIEW ->
  handleCycleSpeed state store = store
  /\ speedFactor (handleCycleSpeed state store) = speedFactor store.
Proof.
  intros [-> | ->]; unfold handleCycleSpeed, isDisabled; simpl; by split.
Qed.

Lemma C10_cycle_locked_witness :
  handleCycleSpeed ZOOMING_IN {| current := 2; userValue := 2 |}
  = {| current := 2; userValue := 2 |}.
Proof.
  apply (C10_cycle_locked ZOOMING_IN {| current := 2; userValue := 2 |}).
  left. reflexivity.
Defined.

(** Outside those states the action does cycle: from 2 the store goes to 5. *)
Example cycle_in_free :
  current (handleCycleSpeed FREE {| current := 2; userValue := 2 |}) = 5.
Proof.
  unfold handleCycleSpeed, isDisabled, findIndex, SPEED_PRESETS. simpl.
  rewrite (bool_decide_eq_false_2 (Rabs (2 - 0) < 0.1)).
  2: { rewrite Rabs_right by lra. lra. }
  rewrite (bool_decide_eq_false_2 (Rabs (2 - 1) < 0.1)).
  2: { rewrite Rabs_right by lra. lra. }
  rewrite (bool_decide_eq_true_2 (Rabs (2 - 2) < 0.1)).
  2: { rewrite Rabs_right by lra. lra. }
  reflexivity.
Qed.

End SpeedClaims.

(** * Further properties of the motion code *)

(** ** Lengths, interpolation and geometric decay *)

Module Vector3More.
Import Vector3.

Lemma sum_squares_nonneg (a b c : R) : 0 <= a * a + b * b + c * c.
Proof. nra. Qed.

Lemma length_nonneg (a : Vec3) : 0 <= length a.
Proof. apply sqrt_pos. Qed.

Lemma length_sqr (a : Vec3) : length a * length a = x a * x a + y a * y a + z a * z a.
Proof. unfold length. apply sqrt_sqrt, sum_squares_nonneg. Qed.

Lemma length_mk_scale (a b c s : R) :
  length (mk (a * s) (b * s) (c * s)) = Rabs s * length (mk a b c).
Proof.
  unfold length. simpl.
  replace (a * s * (a * s) + b * s * (b * s) + c * s * (c * s))
    with (Rsqr s * (a * a + b * b + c * c)) by (unfold Rsqr; ring).
  rewrite sqrt_mult; [| apply Rle_0_sqr | apply sum_squares_nonneg].
  by rewrite sqrt_Rsqr_abs.
Qed.

Lemma length_multiplyScalar (a : Vec3) (s : R) :
  length (multiplyScalar a s) = Rabs s * length a.
Proof. destruct a as [ax ay az]. apply length_mk_scale. Qed.

(** One interpolation step shrinks the distance to the goal by [1 - alpha]. *)
Lemma distanceTo_lerp (v w : Vec3) (alpha : R) :
  distanceTo (lerp v w alpha) w = Rabs (1 - alpha) * distanceTo v w.
Proof.
  destruct v as [vx vy vz], w as [wx wy wz]. unfold distanceTo, lerp, sub. simpl.
  rewrite <- length_mk_scale. f_equal. f_equal; lra.
Qed.

Lemma length_normalize (a : Vec3) : length a <> 0 -> length (normalize a) = 1.
Proof.
  intros Hne. unfold normalize. rewrite decide_False by exact Hne.
  rewrite length_multiplyScalar.
  pose proof (length_nonneg a) as Hpos.
  rewrite Rabs_right; [field; exact Hne|].
  apply Rle_ge. apply Rlt_le. apply Rdiv_lt_0_compat; lra.
Qed.

Lemma normalize_degenerate (a : Vec3) : length a = 0 -> length (normalize a) = 0.
Proof.
  intros Hz. unfold normalize. rewrite decide_True by exact Hz.
  rewrite length_multiplyScalar, Hz. lra.
Qed.

Lemma distanceTo_add (p o : Vec3) : distanceTo (add p o) p = length o.
Proof.
  destruct p as [px py pz], o as [ox oy oz]. unfold distanceTo, add, sub, length. simpl.
  f_equal. ring.
Qed.

Lemma length_zero_components (a : Vec3) : length a = 0 -> x a = 0 /\ y a = 0 /\ z a = 0.
Proof.
  intros Hz. pose proof (length_sqr a) as Hs. rewrite Hz in Hs.
  repeat split; nra.
Qed.

(** A distance that shrinks by a fixed factor below 1 every step ends below
    any positive threshold. *)
Lemma geometric_below (q d eps : R) :
  0 <= q < 1 -> 0 <= d -> 0 < eps ->
  exists N : nat, forall n : nat, (N <= n)%nat -> q ^ n * d < eps.
Proof.
  intros [Hq0 Hq1] Hd Heps.
  assert (Hy : 0 < eps / (d + 1)) by (apply Rdiv_lt_0_compat; lra).
  destruct (pow_lt_1_zero q ltac:(rewrite Rabs_right; lra) (eps / (d + 1)) Hy) as [N HN].
  exists N. intros n Hn. specialize (HN n ltac:(lia)).
  assert (Hp : 0 <= q ^ n) by (by apply pow_le).
  rewrite Rabs_right in HN by lra.
  assert (Hm : q ^ n * (d + 1) < eps).
  { apply (Rmult_lt_compat_r (d + 1)) in HN; [|lra].
    replace (eps / (d + 1) * (d + 1)) with eps in HN by (field; lra). exact HN. }
  nra.
Qed.

End Vector3More.

(** ** Frames of the camera controller, iterated *)

Module Convergence.
Import CameraController Vector3Facts Vector3More.

Section Runs.
Variable orbitControlsUpdate : OrbitControls -> Vec3 -> Vec3.
Variable sel : option CelestialSelection.
Variable registry : gmap string Vec3.

Local Abbreviation step := (frame orbitControlsUpdate sel registry true).

Lemma steps_add (a b : nat) (r : Rig) :
  Nat.iter (a + b) step r = Nat.iter a step (Nat.iter b step r).
Proof. apply Nat.iter_add. Qed.

Lemma steps_S (n : nat) (r : Rig) : Nat.iter (S n) step r = step (Nat.iter n step r).
Proof. reflexivity. Qed.

Lemma free_stable (r : Rig) : cameraState r = FREE -> cameraState (step r) = FREE.
Proof. intros Hs. unfold frame. rewrite Hs. simpl. exact Hs. Qed.

Lemma detail_stable (r : Rig) :
  cameraState r = DETAIL_VIEW -> cameraState (step r) = DETAIL_VIEW.
Proof.
  intros Hs. unfold frame. rewrite Hs. unfold updateCameraState, caseDetailView.
  destruct sel; [|exact Hs].
  destruct (getPlanetPosition _ _); exact Hs.
Qed.

Lemma stable_forever (state : CameraState) (r : Rig) (n : nat) :
  (forall r0, cameraState r0 = state -> cameraState (step r0) = state) ->
  cameraState r = state -> cameraState (Nat.iter n step r) = state.
Proof. intros Hst Hs. induction n as [|n IH]; [exact Hs | simpl; by apply Hst]. Qed.

Lemma stable_from (state : CameraState) (r : Rig) (k : nat) :
  (forall r0, cameraState r0 = state -> cameraState (step r0) = state) ->
  cameraState (Nat.iter k step r) = state ->
  forall n, (k <= n)%nat -> cameraState (Nat.iter n step r) = state.
Proof.
  intros Hst Hk n Hn. replace n with ((n - k) + k)%nat by lia.
  rewrite steps_add. by apply stable_forever.
Qed.

(** *** INTRO_ANIMATION *)

Lemma intro_step (r : Rig) :
  cameraState r = INTRO_ANIMATION -> introAnimationCompleted r = false ->
  let p := Vector3.lerp (cameraPosition r) CAMERA.HOME_POSITION 0.015 in
  (Vector3.distanceTo p CAMERA.HOME_POSITION < 0.01
   /\ cameraState (step r) = FREE /\ cameraPosition (step r) = CAMERA.HOME_POSITION
   /\ introAnimationCompleted (step r) = true)
  \/ (~ Vector3.distanceTo p CAMERA.HOME_POSITION < 0.01
      /\ cameraState (step r) = INTRO_ANIMATION /\ cameraPosition (step r) = p
      /\ introAnimationCompleted (step r) = false).
Proof.
  intros Hs Hc p. unfold frame. rewrite Hs.
  unfold updateCameraState, caseIntroAnimation, homePosition. rewrite Hc. fold p.
  case_bool_decide as Hd; simpl; [left | right]; by repeat split.
Qed.

Lemma intro_progress (r : Rig) (n : nat) :
  cameraState r = INTRO_ANIMATION -> introAnimationCompleted r = false ->
  (exists k, (k <= n)%nat /\ cameraState (Nat.iter k step r) = FREE
             /\ cameraPosition (Nat.iter k step r) = CAMERA.HOME_POSITION
             /\ introAnimationCompleted (Nat.iter k step r) = true)
  \/ (cameraState (Nat.iter n step r) = INTRO_ANIMATION
      /\ introAnimationCompleted (Nat.iter n step r) = false
      /\ Vector3.distanceTo (cameraPosition (Nat.iter n step r)) CAMERA.HOME_POSITION
         = 0.985 ^ n * Vector3.distanceTo (cameraPosition r) CAMERA.HOME_POSITION).
Proof.
  intros Hs Hc. induction n as [|n IH].
  - right. simpl. repeat split; [exact Hs | exact Hc | lra].
  - destruct IH as [(k & Hk & Hrest) | (Hsn & Hcn & Hdn)].
    + left. exists k. split; [lia | exact Hrest].
    + destruct (intro_step _ Hsn Hcn) as [(_ & Hf & Hp & Hfl) | (_ & Hi & Hp & Hfl)].
      * left. exists (S n). by repeat split.
      * right. rewrite steps_S. repeat split; [exact Hi | exact Hfl |].
        rewrite Hp, distanceTo_lerp, Hdn. simpl.
        rewrite Rabs_right by lra. lra.
Qed.

Lemma intro_reaches_free (r : Rig) :
  cameraState r = INTRO_ANIMATION -> introAnimationCompleted r = false ->
  exists k, cameraState (Nat.iter k step r) = FREE
            /\ cameraPosition (Nat.iter k step r) = CAMERA.HOME_POSITION
            /\ introAnimationCompleted (Nat.iter k step r) = true
            /\ forall n, (k <= n)%nat -> cameraState (Nat.iter n step r) = FREE.
Proof.
  intros Hs Hc.
  set (d0 := Vector3.distanceTo (cameraPosition r) CAMERA.HOME_POSITION).
  destruct (geometric_below 0.985 d0 0.01 ltac:(lra) (length_nonneg _) ltac:(lra))
    as [N HN].
  assert (Hk : exists k, cameraState (Nat.iter k step r) = FREE
                         /\ cameraPosition (Nat.iter k step r) = CAMERA.HOME_POSITION
                         /\ introAnimationCompleted (Nat.iter k step r) = true).
  { destruct (intro_progress r N Hs Hc) as [(k & _ & Hrest) | (Hsn & Hcn & Hdn)].
    - by exists k.
    - destruct (intro_step _ Hsn Hcn) as [(_ & Hrest) | (Hnot & _)].
      + by exists (S N).
      + exfalso. apply Hnot. rewrite distanceTo_lerp, Hdn, Rabs_right by lra.
        fold d0. specialize (HN (S N) ltac:(lia)). simpl in HN. lra. }
  destruct Hk as (k & Hf & Hp & Hfl). exists k. repeat split; try assumption.
  apply stable_from; [exact free_stable | exact Hf].
Qed.

(** *** MOVING_TO_HOME *)

Lemma home_step (r : Rig) :
  cameraState r = MOVING_TO_HOME ->
  let p := Vector3.lerp (cameraPosition r) CAMERA.HOME_POSITION CAMERA.LERP_FACTOR in
  let t := Vector3.lerp (invisibleTarget r) Vector3.zero CAMERA.LERP_FACTOR in
  (Vector3.distanceTo p CAMERA.HOME_POSITION < CAMERA.POSITION_EPSILON
   /\ Vector3.distanceTo t Vector3.zero < CAMERA.POSITION_EPSILON
   /\ cameraState (step r) = FREE /\ invisibleTarget (step r) = Vector3.zero
   /\ target (controls (step r)) = Vector3.zero
   /\ maxDistance (controls (step r)) = Infinity)
  \/ (~ (Vector3.distanceTo p CAMERA.HOME_POSITION < CAMERA.POSITION_EPSILON
         /\ Vector3.distanceTo t Vector3.zero < CAMERA.POSITION_EPSILON)
      /\ cameraState (step r) = MOVING_TO_HOME /\ cameraPosition (step r) = p
      /\ invisibleTarget (step r) = t).
Proof.
  intros Hs p t. unfold frame. rewrite Hs.
  unfold updateCameraState, caseMovingToHome, homePosition. fold p. fold t.
  destruct (decide (Vector3.distanceTo p CAMERA.HOME_POSITION < CAMERA.POSITION_EPSILON))
    as [H1 | H1];
  destruct (decide (Vector3.distanceTo t Vector3.zero < CAMERA.POSITION_EPSILON))
    as [H2 | H2].
  - left. rewrite !bool_decide_eq_true_2 by assumption. simpl. by repeat split.
  - right. rewrite (bool_decide_eq_false_2 _ H2), andb_false_r.
    split; [intros [_ Hc]; contradiction | by repeat split].
  - right. rewrite (bool_decide_eq_false_2 _ H1). simpl.
    split; [intros [Hc _]; contradiction | by repeat split].
  - right. rewrite (bool_decide_eq_false_2 _ H1). simpl.
    split; [intros [Hc _]; contradiction | by repeat split].
Qed.

Lemma home_progress (r : Rig) (n : nat) :
  cameraState r = MOVING_TO_HOME ->
  (exists k, (k <= n)%nat /\ cameraState (Nat.iter k step r) = FREE
             /\ invisibleTarget (Nat.iter k step r) = Vector3.zero
             /\ maxDistance (controls (Nat.iter k step r)) = Infinity)
  \/ (cameraState (Nat.iter n step r) = MOVING_TO_HOME
      /\ Vector3.distanceTo (cameraPosition (Nat.iter n step r)) CAMERA.HOME_POSITION
         = 0.985 ^ n * Vector3.distanceTo (cameraPosition r) CAMERA.HOME_POSITION
      /\ Vector3.distanceTo (invisibleTarget (Nat.iter n step r)) Vector3.zero
         = 0.985 ^ n * Vector3.distanceTo (invisibleTarget r) Vector3.zero).
Proof.
  intros Hs. induction n as [|n IH].
  - right. simpl. repeat split; [exact Hs | lra | lra].
  - destruct IH as [(k & Hk & Hrest) | (Hsn & Hdn & Htn)].
    + left. exists k. split; [lia | exact Hrest].
    + destruct (home_step _ Hsn) as [(_ & _ & Hf & Ht & _ & Hm) | (_ & Hm & Hp & Ht)].
      * left. exists (S n). by repeat split.
      * right. rewrite steps_S. split; [exact Hm|].
        rewrite Hp, Ht, !distanceTo_lerp, Hdn, Htn.
        unfold CAMERA.LERP_FACTOR. rewrite Rabs_right by lra. simpl. split; lra.
Qed.

Lemma home_reaches_free (r : Rig) :
  cameraState r = MOVING_TO_HOME ->
  exists k, cameraState (Nat.iter k step r) = FREE
            /\ invisibleTarget (Nat.iter k step r) = Vector3.zero
            /\ maxDistance (controls (Nat.iter k step r)) = Infinity
            /\ forall n, (k <= n)%nat -> cameraState (Nat.iter n step r) = FREE.
Proof.
  intros Hs.
  set (d0 := Vector3.distanceTo (cameraPosition r) CAMERA.HOME_POSITION).
  set (t0 := Vector3.distanceTo (invisibleTarget r) Vector3.zero).
  destruct (geometric_below 0.985 d0 0.1 ltac:(lra) (length_nonneg _) ltac:(lra))
    as [N1 HN1].
  destruct (geometric_below 0.985 t0 0.1 ltac:(lra) (length_nonneg _) ltac:(lra))
    as [N2 HN2].
  set (N := (N1 + N2)%nat).
  assert (Hk : exists k, cameraState (Nat.iter k step r) = FREE
                         /\ invisibleTarget (Nat.iter k step r) = Vector3.zero
                         /\ maxDistance (controls (Nat.iter k step r)) = Infinity).
  { destruct (home_progress r N Hs) as [(k & _ & Hrest) | (Hsn & Hdn & Htn)].
    - by exists k.
    - destruct (home_step _ Hsn) as [(_ & _ & Hf & Ht & _ & Hm) | (Hnot & _)].
      + exists (S N). by repeat split.
      + exfalso. apply Hnot. rewrite !distanceTo_lerp, Hdn, Htn.
        unfold CAMERA.LERP_FACTOR, CAMERA.POSITION_EPSILON.
        rewrite Rabs_right by lra. fold d0 t0.
        specialize (HN1 (S N) ltac:(lia)). specialize (HN2 (S N) ltac:(lia)).
        simpl in HN1, HN2. split; lra. }
  destruct Hk as (k & Hf & Ht & Hm). exists k. repeat split; try assumption.
  apply stable_from; [exact free_stable | exact Hf].
Qed.

End Runs.

(** *** ZOOMING_IN toward a body that stays where it is *)

Section Zoom.
Variable orbitControlsUpdate : OrbitControls -> Vec3 -> Vec3.
Variable body : CelestialSelection.
Variable registry : gmap string Vec3.
Variable pos : Vec3.
Hypothesis Hpos : getPlanetPosition (Some body) registry = Some pos.
Hypothesis Hradius : 0 < selRadius body.

Local Abbreviation step := (frame orbitControlsUpdate (Some body) registry true).
Local Abbreviation desired := (zoomTargetPosition pos body).
Local Abbreviation eps := (selRadius body * CAMERA.POSITION_EPSILON).

Lemma zoom_step (r : Rig) :
  cameraState r = ZOOMING_IN ->
  let p := Vector3.lerp (cameraPosition r) desired CAMERA.LERP_FACTOR in
  let t := Vector3.lerp (invisibleTarget r) pos CAMERA.FAST_LERP_FACTOR in
  (Vector3.distanceTo p desired < eps /\ Vector3.distanceTo t pos < eps
   /\ cameraState (step r) = DETAIL_VIEW /\ invisibleTarget (step r) = t
   /\ target (controls (step r)) = t)
  \/ (~ (Vector3.distanceTo p desired < eps /\ Vector3.distanceTo t pos < eps)
      /\ cameraState (step r) = ZOOMING_IN /\ cameraPosition (step r) = p
      /\ invisibleTarget (step r) = t).
Proof.
  intros Hs p t. unfold frame. rewrite Hs.
  unfold updateCameraState, caseZoomingIn. rewrite Hpos. fold p. fold t.
  unfold reachedPosition, reachedLookAt.
  destruct (decide (Vector3.distanceTo p desired < eps)) as [H1 | H1];
  destruct (decide (Vector3.distanceTo t pos < eps)) as [H2 | H2].
  - left. rewrite !bool_decide_eq_true_2 by assumption. simpl. by repeat split.
  - right. rewrite (bool_decide_eq_false_2 _ H2), andb_false_r.
    split; [intros [_ Hc]; contradiction | by repeat split].
  - right. rewrite (bool_decide_eq_false_2 _ H1). simpl.
    split; [intros [Hc _]; contradiction | by repeat split].
  - right. rewrite (bool_decide_eq_false_2 _ H1). simpl.
    split; [intros [Hc _]; contradiction | by repeat split].
Qed.

Lemma zoom_progress (r : Rig) (n : nat) :
  cameraState r = ZOOMING_IN ->
  (exists k, (k <= n)%nat /\ cameraState (Nat.iter k step r) = DETAIL_VIEW
             /\ Vector3.distanceTo (target (controls (Nat.iter k step r))) pos < eps)
  \/ (cameraState (Nat.iter n step r) = ZOOMING_IN
      /\ Vector3.distanceTo (cameraPosition (Nat.iter n step r)) desired
         = 0.985 ^ n * Vector3.distanceTo (cameraPosition r) desired
      /\ Vector3.distanceTo (invisibleTarget (Nat.iter n step r)) pos
         = 0.96 ^ n * Vector3.distanceTo (invisibleTarget r) pos).
Proof.
  intros Hs. induction n as [|n IH].
  - right. simpl. repeat split; [exact Hs | lra | lra].
  - destruct IH as [(k & Hk & Hrest) | (Hsn & Hdn & Htn)].
    + left. exists k. split; [lia | exact Hrest].
    + destruct (zoom_step _ Hsn) as [(_ & Hlt & Hd & _ & Htg) | (_ & Hz & Hp & Ht)].
      * left. exists (S n). split; [lia|]. split; [exact Hd|].
        rewrite (steps_S orbitControlsUpdate (Some body) registry), Htg. exact Hlt.
      * right. rewrite (steps_S orbitControlsUpdate (Some body) registry).
        split; [exact Hz|].
        rewrite Hp, Ht, !distanceTo_lerp, Hdn, Htn.
        unfold CAMERA.LERP_FACTOR, CAMERA.FAST_LERP_FACTOR.
        rewrite !Rabs_right by lra. simpl. split; lra.
Qed.

Lemma detail_step_controls (r : Rig) :
  cameraState r = DETAIL_VIEW ->
  target (controls (step r)) = pos /\ enabled (controls (step r)) = true.
Proof.
  intros Hs. unfold frame. rewrite Hs.
  unfold updateCameraState, caseDetailView. rewrite Hpos. by split.
Qed.

Lemma zoom_reaches_detail (r : Rig) :
  cameraState r = ZOOMING_IN ->
  exists k, cameraState (Nat.iter k step r) = DETAIL_VIEW
            /\ Vector3.distanceTo (target (controls (Nat.iter k step r))) pos < eps
            /\ (forall n, (k <= n)%nat -> cameraState (Nat.iter n step r) = DETAIL_VIEW)
            /\ (forall n, (k < n)%nat ->
                  target (controls (Nat.iter n step r)) = pos
                  /\ enabled (controls (Nat.iter n step r)) = true).
Proof.
  intros Hs.
  set (c0 := Vector3.distanceTo (cameraPosition r) desired).
  set (t0 := Vector3.distanceTo (invisibleTarget r) pos).
  assert (Heps : 0 < eps) by (unfold CAMERA.POSITION_EPSILON; nra).
  destruct (geometric_below 0.985 c0 eps ltac:(lra) (length_nonneg _) Heps) as [N1 HN1].
  destruct (geometric_below 0.96 t0 eps ltac:(lra) (length_nonneg _) Heps) as [N2 HN2].
  set (N := (N1 + N2)%nat).
  assert (Hk : exists k, cameraState (Nat.iter k step r) = DETAIL_VIEW
                 /\ Vector3.distanceTo (target (controls (Nat.iter k step r))) pos < eps).
  { destruct (zoom_progress r N Hs) as [(k & _ & Hrest) | (Hsn & Hdn & Htn)].
    - by exists k.
    - destruct (zoom_step _ Hsn) as [(_ & Hlt & Hd & _ & Htg) | (Hnot & _)].
      + exists (S N). split; [exact Hd|].
        rewrite (steps_S orbitControlsUpdate (Some body) registry), Htg. exact Hlt.
      + exfalso. apply Hnot. rewrite !distanceTo_lerp, Hdn, Htn.
        unfold CAMERA.LERP_FACTOR, CAMERA.FAST_LERP_FACTOR.
        rewrite !Rabs_right by lra. fold c0 t0.
        specialize (HN1 (S N) ltac:(lia)). specialize (HN2 (S N) ltac:(lia)).
        simpl in HN1, HN2. split; lra. }
  destruct Hk as (k & Hd & Hlt). exists k.
  assert (Hall : forall n, (k <= n)%nat -> cameraState (Nat.iter n step r) = DETAIL_VIEW).
  { apply stable_from; [apply detail_stable | exact Hd]. }
  repeat split; try assumption.
  - destruct n as [|n]; [lia|].
    rewrite (steps_S orbitControlsUpdate (Some body) registry).
    apply detail_step_controls, Hall. lia.
  - destruct n as [|n]; [lia|].
    rewrite (steps_S orbitControlsUpdate (Some body) registry).
    apply detail_step_controls, Hall. lia.
Qed.

End Zoom.

End Convergence.

(** ** The camera controller, beyond single frames *)

Module CameraExtras.
Import CameraController SceneLoop Reference Samples Vector3Facts Vector3More Convergence.

(** *** Where the zoom aims *)

Lemma bias_unit : Vector3.length (Vector3.normalize (Vector3.mk 0.3 0.7 0.2)) = 1.
Proof.
  apply length_normalize. intros Hz.
  pose proof (length_sqr (Vector3.mk 0.3 0.7 0.2)) as Hs. rewrite Hz in Hs. simpl in Hs. lra.
Qed.

Lemma normalize_length_cases (a : Vec3) :
  Vector3.length (Vector3.normalize a) = 0 \/ Vector3.length (Vector3.normalize a) = 1.
Proof.
  destruct (decide (Vector3.length a = 0)) as [Hz | Hnz];
    [left; by apply normalize_degenerate | right; by apply length_normalize].
Qed.

Lemma offsetConfig_cases (sel : CelestialSelection) :
  (selIsMoon sel = true /\ offsetConfig sel = (0.3, 8))
  \/ (selIsMoon sel = false /\ selName sel = "Jupiter"%string /\ offsetConfig sel = (2.0, 5))
  \/ (selIsMoon sel = false /\ selName sel <> "Jupiter"%string /\ offsetConfig sel = (1.5, 3)).
Proof.
  unfold offsetConfig. destruct (selIsMoon sel); [by left | right].
  case_bool_decide; [left | right]; by repeat split.
Qed.

(** The blend of the outward direction and the fixed bias never vanishes:
    its two parts have different lengths. *)
Lemma offset_direction_nonzero (u n : Vec3) (vo : R) :
  Vector3.length u = 0 \/ Vector3.length u = 1 ->
  Vector3.length n = 1 -> vo = 0.3 \/ vo = 2.0 \/ vo = 1.5 ->
  Vector3.length (Vector3.add (Vector3.multiplyScalar u (-1)) (Vector3.multiplyScalar n vo))
  <> 0.
Proof.
  intros Hu Hn Hvo Hz.
  apply length_zero_components in Hz as (Hx & Hy & Hzc). simpl in Hx, Hy, Hzc.
  pose proof (length_sqr u) as Hsu. pose proof (length_sqr n) as Hsn.
  rewrite Hn in Hsn.
  assert (Ex : Vector3.x u = Vector3.x n * vo) by lra.
  assert (Ey : Vector3.y u = Vector3.y n * vo) by lra.
  assert (Ez : Vector3.z u = Vector3.z n * vo) by lra.
  rewrite Ex, Ey, Ez in Hsu.
  assert (Hsq : Vector3.length u * Vector3.length u = vo * vo).
  { rewrite Hsu.
    replace (Vector3.x n * vo * (Vector3.x n * vo) + Vector3.y n * vo * (Vector3.y n * vo)
             + Vector3.z n * vo * (Vector3.z n * vo))
      with (vo * vo * (Vector3.x n * Vector3.x n + Vector3.y n * Vector3.y n
                       + Vector3.z n * Vector3.z n)) by ring.
    rewrite <- Hsn. ring. }
  destruct Hu as [Hu | Hu]; rewrite Hu in Hsq;
    destruct Hvo as [-> | [-> | ->]]; lra.
Qed.

Lemma calculateCameraOffset_length (pos : Vec3) (sel : CelestialSelection) :
  0 <= selRadius sel ->
  Vector3.length (calculateCameraOffset pos sel) = selRadius sel * snd (offsetConfig sel).
Proof.
  intros Hr. unfold calculateCameraOffset.
  rewrite length_multiplyScalar, length_normalize.
  - assert (Hdf : 0 <= snd (offsetConfig sel)).
    { destruct (offsetConfig_cases sel) as [(_ & ->) | [(_ & _ & ->) | (_ & _ & ->)]];
        simpl; lra. }
    rewrite Rabs_right by (apply Rle_ge; nra). lra.
  - apply offset_direction_nonzero.
    + apply normalize_length_cases.
    + exact bias_unit.
    + destruct (offsetConfig_cases sel) as [(_ & ->) | [(_ & _ & ->) | (_ & _ & ->)]];
        simpl; auto.
Qed.

Lemma sun_offset_length : 10 < Vector3.length DISTANCE_FACTORS.SUN.OFFSET < 11.
Proof.
  pose proof (length_nonneg DISTANCE_FACTORS.SUN.OFFSET) as Hp.
  pose proof (length_sqr DISTANCE_FACTORS.SUN.OFFSET) as Hs. simpl in Hs.
  split; nra.
Qed.

(** X10: the camera position a zoom aims at lies at [radius * DISTANCE_FACTOR]
    from the body (8 for a moon, 5 for Jupiter, 3 for another planet), and for
    every class of body, the star included, that distance is within the
    limits DETAIL_VIEW then puts on the controls. *)
Theorem zoom_goal_within_detail_limits (pos : Vec3) (sel : CelestialSelection) :
  0 <= selRadius sel ->
  (selIsSun sel = false ->
   Vector3.distanceTo (zoomTargetPosition pos sel) pos
   = selRadius sel * snd (offsetConfig sel))
  /\ selRadius sel * fst (distanceConfig sel)
     <= Vector3.distanceTo (zoomTargetPosition pos sel) pos
     <= selRadius sel * snd (distanceConfig sel).
Proof.
  intros Hr. unfold zoomTargetPosition, distanceConfig.
  destruct (selIsSun sel) eqn:Hsun.
  - split; [discriminate|].
    rewrite distanceTo_add, length_multiplyScalar.
    unfold DISTANCE_FACTORS.SUN.SCALE, DISTANCE_FACTORS.SUN.MIN, DISTANCE_FACTORS.SUN.MAX.
    simpl. rewrite Rabs_right by (apply Rle_ge; nra).
    pose proof sun_offset_length as [H1 H2]. split; nra.
  - rewrite distanceTo_add, calculateCameraOffset_length by exact Hr.
    split; [reflexivity|].
    unfold DISTANCE_FACTORS.JUPITER.MIN, DISTANCE_FACTORS.JUPITER.MAX,
      DISTANCE_FACTORS.DEFAULT_PLANET.MIN, DISTANCE_FACTORS.DEFAULT_PLANET.MAX.
    destruct (offsetConfig_cases sel) as [(Hm & ->) | [(Hm & Hn & ->) | (Hm & Hn & ->)]];
      rewrite Hm; simpl.
    + split; nra.
    + rewrite bool_decide_eq_true_2 by exact Hn. simpl. split; nra.
    + rewrite bool_decide_eq_false_2 by exact Hn. simpl. split; nra.
Qed.

Lemma zoom_goal_within_detail_limits_witness :
  Vector3.distanceTo (zoomTargetPosition (Vector3.mk 8 0 0) (SelPlanet earth))
    (Vector3.mk 8 0 0) = 1 * 3.
Proof.
  apply (zoom_goal_within_detail_limits (Vector3.mk 8 0 0) (SelPlanet earth)).
  - simpl. lra.
  - reflexivity.
Defined.

(** *** What a frame may do to the state *)

(** X5: a frame either keeps the camera state or takes one of three steps:
    INTRO_ANIMATION to FREE, MOVING_TO_HOME to FREE, ZOOMING_IN to DETAIL_VIEW
    (so FREE and DETAIL_VIEW are left by input handlers only); and the intro
    flag changes on the first of these steps only. *)
Theorem frame_transitions (orbitControlsUpdate : OrbitControls -> Vec3 -> Vec3)
    (sel : option CelestialSelection) (registry : gmap string Vec3)
    (mounted : bool) (r : Rig) :
  let r' := frame orbitControlsUpdate sel registry mounted r in
  (cameraState r' = cameraState r
   \/ (cameraState r = INTRO_ANIMATION /\ cameraState r' = FREE)
   \/ (cameraState r = MOVING_TO_HOME /\ cameraState r' = FREE)
   \/ (cameraState r = ZOOMING_IN /\ cameraState r' = DETAIL_VIEW))
  /\ (introAnimationCompleted r' = introAnimationCompleted r
      \/ (cameraState r = INTRO_ANIMATION /\ cameraState r' = FREE
          /\ introAnimationCompleted r' = true)).
Proof.
  unfold frame. destruct mounted; [|by split; left].
  destruct (cameraState r) eqn:Hs; simpl.
  - unfold caseIntroAnimation. destruct (introAnimationCompleted r) eqn:Hc.
    + rewrite Hs, Hc. naive_solver.
    + case_bool_decide; simpl; rewrite ?Hs; naive_solver.
  - rewrite Hs. naive_solver.
  - unfold caseZoomingIn. destruct sel as [b|]; [|rewrite Hs; naive_solver].
    destruct (getPlanetPosition (Some b) registry); [|rewrite Hs; naive_solver].
    destruct (reachedPosition _ _ _ && reachedLookAt _ _ _); simpl; rewrite ?Hs;
      naive_solver.
  - unfold caseDetailView. destruct sel as [b|]; [|rewrite Hs; naive_solver].
    destruct (getPlanetPosition (Some b) registry); simpl; rewrite ?Hs; naive_solver.
  - unfold caseMovingToHome.
    destruct (bool_decide _ && bool_decide _); simpl; rewrite ?Hs; naive_solver.
Qed.

End CameraExtras.

(** ** Runs of the scene: the camera arrives *)

Module SceneExtras.
Import CameraController SceneLoop Reference Samples Convergence.

Section Arrivals.
Context {Store : Type} `{SpeedControlContextType Store}.
Variable orbitControlsUpdate : OrbitControls -> Vec3 -> Vec3.

Lemma cameraFrames_S (n : nat) (s : Scene Store) :
  cameraFrames orbitControlsUpdate (S n) s
  = cameraFrame orbitControlsUpdate (cameraFrames orbitControlsUpdate n s).
Proof. reflexivity. Qed.

(** Frames change the rig and nothing else. *)
Lemma cameraFrames_frame (n : nat) (s : Scene Store) :
  selectedPlanet (cameraFrames orbitControlsUpdate n s) = selectedPlanet s
  /\ planetPositions (cameraFrames orbitControlsUpdate n s) = planetPositions s
  /\ controlsMounted (cameraFrames orbitControlsUpdate n s) = controlsMounted s
  /\ speed (cameraFrames orbitControlsUpdate n s) = speed s
  /\ rig (cameraFrames orbitControlsUpdate n s)
     = Nat.iter n (frame orbitControlsUpdate (selectedPlanet s) (planetPositions s)
                     (controlsMounted s)) (rig s).
Proof.
  induction n as [|n (Hsel & Hreg & Hm & Hsp & Hrig)]; [by repeat split|].
  rewrite cameraFrames_S. unfold cameraFrame at 1 2 3 4 5. simpl.
  rewrite Hsel, Hreg, Hm, Hrig. by repeat split.
Qed.

Lemma cameraFrames_rig (n : nat) (s : Scene Store) :
  controlsMounted s = true ->
  rig (cameraFrames orbitControlsUpdate n s)
  = Nat.iter n (frame orbitControlsUpdate (selectedPlanet s) (planetPositions s) true) (rig s).
Proof.
  intros Hm. destruct (cameraFrames_frame n s) as (_ & _ & _ & _ & Hrig).
  by rewrite Hrig, Hm.
Qed.

(** X6: the intro animation ends.  From any camera position, with the controls
    mounted, some frame puts the camera on the home position and the state on
    FREE, and the state is FREE on every later frame. *)
Theorem intro_animation_terminates (s : Scene Store) :
  controlsMounted s = true ->
  cameraState (rig s) = INTRO_ANIMATION ->
  introAnimationCompleted (rig s) = false ->
  exists k : nat,
    cameraState (rig (cameraFrames orbitControlsUpdate k s)) = FREE
    /\ cameraPosition (rig (cameraFrames orbitControlsUpdate k s)) = CAMERA.HOME_POSITION
    /\ forall n, (k <= n)%nat ->
         cameraState (rig (cameraFrames orbitControlsUpdate n s)) = FREE.
Proof.
  intros Hm Hs Hc.
  destruct (intro_reaches_free orbitControlsUpdate (selectedPlanet s) (planetPositions s)
              (rig s) Hs Hc) as (k & Hf & Hp & _ & Hall).
  exists k. rewrite cameraFrames_rig by exact Hm. repeat split; try assumption.
  intros n Hn. rewrite cameraFrames_rig by exact Hm. by apply Hall.
Qed.

(** X7: a zoom toward a body that stays where it is ends.  With a selection of
    positive radius whose position resolves, and the registry unchanged, some
    frame moves the state to DETAIL_VIEW with the controls' target within
    [radius * POSITION_EPSILON] of the body; the state is DETAIL_VIEW on every
    later frame, with manual control on and the target on the body. *)
Theorem zoom_terminates (s : Scene Store) (body : CelestialSelection) (pos : Vec3) :
  controlsMounted s = true ->
  cameraState (rig s) = ZOOMING_IN ->
  selectedPlanet s = Some body ->
  getPlanetPosition (Some body) (planetPositions s) = Some pos ->
  0 < selRadius body ->
  exists k : nat,
    cameraState (rig (cameraFrames orbitControlsUpdate k s)) = DETAIL_VIEW
    /\ Vector3.distanceTo (target (controls (rig (cameraFrames orbitControlsUpdate k s)))) pos
       < selRadius body * CAMERA.POSITION_EPSILON
    /\ forall n, (k < n)%nat ->
         cameraState (rig (cameraFrames orbitControlsUpdate n s)) = DETAIL_VIEW
         /\ enabled (controls (rig (cameraFrames orbitControlsUpdate n s))) = true
         /\ target (controls (rig (cameraFrames orbitControlsUpdate n s))) = pos.
Proof.
  intros Hm Hs Hsel Hpos Hr.
  destruct (zoom_reaches_detail orbitControlsUpdate body (planetPositions s) pos Hpos Hr
              (rig s) Hs) as (k & Hd & Hlt & Hall & Hctl).
  exists k. rewrite cameraFrames_rig, Hsel by exact Hm. repeat split; try assumption.
  - rewrite cameraFrames_rig, Hsel by exact Hm. apply Hall. lia.
  - rewrite cameraFrames_rig, Hsel by exact Hm. by apply Hctl.
  - rewrite cameraFrames_rig, Hsel by exact Hm. by apply Hctl.
Qed.

(** X9: the round trip of a visit.  Selecting a planet whose position resolves
    leads, after enough frames with the registry as it is, to DETAIL_VIEW on
    that planet; leaving the
    view there leads, after enough frames, to FREE with nothing selected, the
    look-at point on the origin, the distance limit lifted, and the speed
    store overridden once and restored once. *)
Theorem visit_round_trip (s : Scene Store) (planet : PlanetData) (pos : Vec3) :
  controlsMounted s = true ->
  getPlanetPosition (Some (SelPlanet planet)) (planetPositions s) = Some pos ->
  0 < radius planet ->
  exists k1 k2 : nat,
    let arrived := cameraFrames orbitControlsUpdate k1 (selectPlanet planet s) in
    let back := cameraFrames orbitControlsUpdate k2 (exitView arrived) in
    cameraState (rig arrived) = DETAIL_VIEW
    /\ selectedPlanet arrived = Some (SelPlanet planet)
    /\ cameraState (rig back) = FREE
    /\ selectedPlanet back = None
    /\ invisibleTarget (rig back) = Vector3.zero
    /\ maxDistance (controls (rig back)) = Infinity
    /\ speed back = restoreSpeedFactor (overrideSpeedFactor (speed s)).
Proof.
  intros Hm Hpos Hr.
  set (s1 := selectPlanet planet s).
  destruct (zoom_reaches_detail orbitControlsUpdate (SelPlanet planet) (planetPositions s)
              pos Hpos Hr (rig s1) eq_refl) as (k1 & Hd & _).
  set (a := cameraFrames orbitControlsUpdate k1 s1).
  destruct (cameraFrames_frame k1 s1) as (Hsel1 & Hreg1 & Hm1 & Hsp1 & _).
  assert (Hda : cameraState (rig a) = DETAIL_VIEW).
  { unfold a. rewrite cameraFrames_rig by exact Hm. exact Hd. }
  assert (Hexit : exitView a = goHome a).
  { unfold exitView. fold a in Hsel1. rewrite Hsel1. simpl.
    by rewrite bool_decide_eq_true_2. }
  destruct (home_reaches_free orbitControlsUpdate None (planetPositions a) (rig (goHome a))
              eq_refl) as (k2 & Hf & Ht & Hmax & _).
  destruct (cameraFrames_frame k2 (goHome a)) as (Hsel2 & _ & _ & Hsp2 & _).
  assert (Hm2 : controlsMounted (goHome a) = true).
  { simpl. fold a in Hm1. rewrite Hm1. exact Hm. }
  exists k1, k2. cbv zeta. fold s1. fold a. rewrite Hexit.
  rewrite (cameraFrames_rig k2 (goHome a) Hm2).
  repeat split; try assumption.
  rewrite Hsp2. simpl. fold a in Hsp1. by rewrite Hsp1.
Qed.

(** X8: a return home ends, from anywhere.  After [goHome], whatever the
    scene was (in the middle of a zoom, in a detail view), some frame puts
    the state on FREE with the look-at point on the origin and the distance
    limit lifted; nothing is selected on the way or after, and the state is
    FREE on every later frame. *)
Theorem go_home_terminates (s : Scene Store) :
  controlsMounted s = true ->
  exists k : nat,
    cameraState (rig (cameraFrames orbitControlsUpdate k (goHome s))) = FREE
    /\ invisibleTarget (rig (cameraFrames orbitControlsUpdate k (goHome s))) = Vector3.zero
    /\ maxDistance (controls (rig (cameraFrames orbitControlsUpdate k (goHome s)))) = Infinity
    /\ (forall n, selectedPlanet (cameraFrames orbitControlsUpdate n (goHome s)) = None)
    /\ (forall n, (k <= n)%nat ->
          cameraState (rig (cameraFrames orbitControlsUpdate n (goHome s))) = FREE).
Proof.
  intros Hm.
  destruct (home_reaches_free orbitControlsUpdate None (planetPositions s) (rig (goHome s))
              eq_refl) as (k & Hf & Ht & Hmax & Hall).
  assert (Hm' : controlsMounted (goHome s) = true) by exact Hm.
  exists k. rewrite (cameraFrames_rig k (goHome s) Hm'). repeat split; try assumption.
  - intros n. by destruct (cameraFrames_frame n (goHome s)) as (-> & _).
  - intros n Hn. rewrite (cameraFrames_rig n (goHome s) Hm'). by apply Hall.
Qed.

End Arrivals.

Lemma go_home_terminates_witness :
  exists k : nat,
    cameraState
      (rig (cameraFrames noClamp k
              (goHome (sceneOf (Some (SelPlanet earth)) registryA
                         (rigAt ZOOMING_IN (Vector3.mk 3 2 1) (Vector3.mk 8 0 0))))))
    = FREE.
Proof.
  destruct (go_home_terminates noClamp
              (sceneOf (Some (SelPlanet earth)) registryA
                 (rigAt ZOOMING_IN (Vector3.mk 3 2 1) (Vector3.mk 8 0 0))) eq_refl)
    as (k & Hf & _).
  exists k. exact Hf.
Defined.

Lemma intro_animation_terminates_witness :
  exists k : nat,
    cameraState
      (rig (cameraFrames noClamp k
              (sceneOf None ∅
                 {| cameraState := INTRO_ANIMATION;
                    cameraPosition := Vector3.mk (-100) 0 100;
                    cameraLookAt := Vector3.zero; invisibleTarget := Vector3.zero;
                    introAnimationCompleted := false; controls := defaultControls |})))
    = FREE.
Proof.
  destruct (intro_animation_terminates noClamp
              (sceneOf None ∅
                 {| cameraState := INTRO_ANIMATION;
                    cameraPosition := Vector3.mk (-100) 0 100;
                    cameraLookAt := Vector3.zero; invisibleTarget := Vector3.zero;
                    introAnimationCompleted := false; controls := defaultControls |})
              eq_refl eq_refl eq_refl) as (k & Hf & _).
  exists k. exact Hf.
Defined.

Lemma zoom_terminates_witness :
  exists k : nat,
    cameraState
      (rig (cameraFrames noClamp k
              (sceneOf (Some (SelPlanet earth)) registryA
                 (rigAt ZOOMING_IN CAMERA.HOME_POSITION Vector3.zero))))
    = DETAIL_VIEW.
Proof.
  destruct (zoom_terminates noClamp
              (sceneOf (Some (SelPlanet earth)) registryA
                 (rigAt ZOOMING_IN CAMERA.HOME_POSITION Vector3.zero))
              (SelPlanet earth) (Vector3.mk 8 0 0) eq_refl eq_refl eq_refl eq_refl)
    as (k & Hd & _).
  - simpl. lra.
  - exists k. exact Hd.
Defined.

Lemma visit_round_trip_witness :
  exists k1 k2 : nat,
    selectedPlanet
      (cameraFrames noClamp k2
         (exitView
            (cameraFrames noClamp k1
               (selectPlanet earth
                  (sceneOf None registryA (rigAt FREE CAMERA.HOME_POSITION Vector3.zero))))))
    = None.
Proof.
  destruct (visit_round_trip noClamp
              (sceneOf None registryA (rigAt FREE CAMERA.HOME_POSITION Vector3.zero))
              earth (Vector3.mk 8 0 0) eq_refl eq_refl) as (k1 & k2 & Hrest).
  - simpl. lra.
  - exists k1, k2. apply Hrest.
Defined.

End SceneExtras.

(** ** More on the orbital update *)

Module OrbitExtras.
Import PlanetsUpdater Reference PlanetsUpdaterFacts Numeric OrbitClaims Vector3More.

(** X1: a planet is always drawn on its orbit ring: whatever its progress, its
    position is in the plane [y = 0] at distance [|orbitRadius|] from the
    origin, and a progress larger by a full turn gives the same position. *)
Theorem planet_stays_on_orbit (planet : PlanetData) (progress : R) :
  Vector3.length (Planet.worldPosition planet progress) = Rabs (distanceFromSun planet)
  /\ Vector3.y (Planet.worldPosition planet progress) = 0
  /\ Planet.worldPosition planet (progress + 2 * PI) = Planet.worldPosition planet progress.
Proof.
  unfold Planet.worldPosition, distanceFromSun. simpl.
  set (d := Vector3.x (position planet)).
  split; [|split; [reflexivity|]].
  - unfold Vector3.length. simpl.
    pose proof (sin2_cos2 progress) as Hsc. unfold Rsqr in Hsc.
    replace (cos progress * d * (cos progress * d) + 0 * 0
             + sin progress * d * (sin progress * d))
      with (Rsqr d * (sin progress * sin progress + cos progress * cos progress))
      by (unfold Rsqr; ring).
    rewrite Hsc, Rmult_1_r. apply sqrt_Rsqr_abs.
  - rewrite cos_plus, sin_plus, cos_2PI, sin_2PI. f_equal; ring.
Qed.

(** *** Keys of the progress map *)

Lemma visit_keeps_some prev sf dt (acc : gmap string R * bool) (p : PlanetData) (k : string) :
  is_Some (acc.1 !! k) -> is_Some ((visit prev sf dt acc p).1 !! k).
Proof.
  intros Hk. destruct (decide (k = name p)) as [-> | Hne].
  - rewrite visit_lookup_self. by eexists.
  - by rewrite visit_lookup_other.
Qed.

Lemma fold_keeps_some prev sf dt (l : list PlanetData) (acc : gmap string R * bool)
    (k : string) :
  is_Some (acc.1 !! k) -> is_Some ((foldl (visit prev sf dt) acc l).1 !! k).
Proof.
  revert acc. induction l as [|q l IH]; intros acc Hk; [exact Hk|].
  simpl. apply IH. by apply visit_keeps_some.
Qed.

Lemma fold_covers prev sf dt (l : list PlanetData) (acc : gmap string R * bool)
    (p : PlanetData) :
  p ∈ l -> is_Some ((foldl (visit prev sf dt) acc l).1 !! name p).
Proof.
  revert acc. induction l as [|q l IH]; intros acc Hin; [by apply elem_of_nil in Hin|].
  simpl. apply elem_of_cons in Hin as [-> | Hin]; [|by apply IH].
  apply fold_keeps_some. rewrite visit_lookup_self. by eexists.
Qed.

(** X4: the update never drops a key and never touches a name outside the
    catalogue, and after it every catalogue body has an entry, also one that
    had none before (a missing entry counts as 0 and is created). *)
Theorem updater_keeps_keys planets sf dt fresh (prev : ProgressObject) :
  (forall k : string, k ∉ name <$> planets ->
     entries (updater planets sf dt fresh prev) !! k = entries prev !! k)
  /\ (forall k : string, is_Some (entries prev !! k) ->
        is_Some (entries (updater planets sf dt fresh prev) !! k))
  /\ (forall p : PlanetData, p ∈ planets ->
        is_Some (entries (updater planets sf dt fresh prev) !! name p)).
Proof.
  rewrite updater_entries. unfold visitAll. repeat split.
  - intros k Hk. by rewrite fold_lookup_notin.
  - intros k Hk. by apply fold_keeps_some.
  - intros p Hin. by apply fold_covers.
Qed.

Lemma updater_keeps_keys_witness :
  is_Some (entries (updater scenarioA 1 1 1%nat {| ref := 0; entries := ∅ |}) !! "Earth"%string)
  /\ entries (updater scenarioA 1 1 1%nat
                {| ref := 0; entries := {[ "Pluto"%string := 7 ]} |}) !! "Pluto"%string
     = Some 7.
Proof.
  split.
  - destruct (updater_keeps_keys scenarioA 1 1 1%nat {| ref := 0; entries := ∅ |})
      as (_ & _ & Hcov).
    exact (Hcov earth earth_in_scenarioA).
  - destruct (updater_keeps_keys scenarioA 1 1 1%nat
                {| ref := 0; entries := {[ "Pluto"%string := 7 ]} |}) as (Hout & _).
    rewrite Hout; [reflexivity|].
    apply (bool_decide_unpack _). reflexivity.
Defined.

(** *** Progress against the clock *)

Lemma run_lastElapsedTime planets inputs (st : State) :
  lastElapsedTime (run planets inputs st)
  = default (lastElapsedTime st) (fst <$> last inputs).
Proof.
  revert st. induction inputs as [|i inputs IH]; intros st; [reflexivity|].
  rewrite run_cons, IH. destruct inputs as [|j inputs]; [reflexivity|].
  rewrite last_cons_cons.
  destruct (last (j :: inputs)) as [e|] eqn:E; [reflexivity|].
  by apply last_None in E.
Qed.

Lemma run_constant_speed_from planets sf (p : PlanetData) :
  NoDup (name <$> planets) -> p ∈ planets -> isSun p = false ->
  forall inputs (st : State) (v : R),
    entries (planetOrbitProgress st) !! name p = Some v ->
    Forall (fun i => snd i = sf) inputs ->
    entries (planetOrbitProgress (run planets inputs st)) !! name p
    = Some (v + orbitSpeedRadians p sf
                * (lastElapsedTime (run planets inputs st) - lastElapsedTime st)).
Proof.
  intros Hnd Hin Hs. induction inputs as [|[t sf'] inputs IH]; intros st v Hv Hall.
  - simpl. rewrite Hv. f_equal. lra.
  - apply Forall_cons in Hall as [Hsf Hall]. simpl in Hsf. subst sf'.
    change (run planets ((t, sf) :: inputs) st) with (run planets inputs (frame planets t sf st)).
    rewrite (IH (frame planets t sf st) (v + orbitSpeedRadians p sf * (t - lastElapsedTime st))).
    + f_equal. simpl. lra.
    + simpl. rewrite (updater_planet_entry _ _ _ _ _ p Hnd Hin Hs), Hv, orZero_Some.
      reflexivity.
    + exact Hall.
Qed.

(** X2: at a constant speed factor the progress of a planet on a real orbit
    (orbit radius above 0) depends on the clock alone, not on how the time
    was cut into frames: after any non-empty run it is the starting value
    plus the rate times the time elapsed between the clock reading the run
    started from and the last reading.  The sum is the sum of real numbers;
    the rounding of each addition is not part of the model. *)
Theorem progress_is_frame_rate_independent planets inputs (st : State) (sf : R)
    (p : PlanetData) :
  NoDup (name <$> planets) -> p ∈ planets -> isSun p = false ->
  0 < distanceFromSun p ->
  inputs <> [] -> Forall (fun i => snd i = sf) inputs ->
  entries (planetOrbitProgress (run planets inputs st)) !! name p
  = Some (orZero (entries (planetOrbitProgress st) !! name p)
          + orbitSpeedRadians p sf
            * (default (lastElapsedTime st) (fst <$> last inputs) - lastElapsedTime st)).
Proof.
  intros Hnd Hin Hs _ Hne Hall. rewrite <- run_lastElapsedTime with (planets := planets).
  destruct inputs as [|[t sf'] inputs]; [done|].
  apply Forall_cons in Hall as [Hsf Hall]. simpl in Hsf. subst sf'.
  change (run planets ((t, sf) :: inputs) st) with (run planets inputs (frame planets t sf st)).
  rewrite (run_constant_speed_from planets sf p Hnd Hin Hs inputs (frame planets t sf st)
             (orZero (entries (planetOrbitProgress st) !! name p)
              + orbitSpeedRadians p sf * (t - lastElapsedTime st))).
  - f_equal. simpl. lra.
  - simpl. by rewrite (updater_planet_entry _ _ _ _ _ p Hnd Hin Hs).
  - exact Hall.
Qed.

Lemma earth_on_orbit : 0 < distanceFromSun earth.
Proof. unfold distanceFromSun. simpl. lra. Qed.

Lemma progress_is_frame_rate_independent_witness :
  entries (planetOrbitProgress (run scenarioA [(1, 2); (1.5, 2); (4, 2)] (startState scenarioA)))
    !! "Earth"%string
  = entries (planetOrbitProgress (run scenarioA [(4, 2)] (startState scenarioA)))
      !! "Earth"%string.
Proof.
  change "Earth"%string with (name earth).
  rewrite (progress_is_frame_rate_independent scenarioA [(1, 2); (1.5, 2); (4, 2)]
             (startState scenarioA) 2 earth scenarioA_names earth_in_scenarioA eq_refl
             earth_on_orbit).
  - rewrite (progress_is_frame_rate_independent scenarioA [(4, 2)]
               (startState scenarioA) 2 earth scenarioA_names earth_in_scenarioA eq_refl
               earth_on_orbit).
    + reflexivity.
    + discriminate.
    + repeat constructor.
  - discriminate.
  - repeat constructor.
Defined.

Lemma orbitSpeedRadians_nonneg (p : PlanetData) (sf : R) :
  0 <= orbitSpeed p -> 0 < distanceFromSun p -> 0 <= sf -> 0 <= orbitSpeedRadians p sf.
Proof.
  intros Hv Hd Hsf. unfold orbitSpeedRadians, ORBIT_SPEED_FACTOR.
  pose proof (keplerFactor_pos _ Hd) as Hk. pose proof PI_RGT_0 as Hpi.
  set (k := keplerFactor (distanceFromSun p)) in *.
  assert (H1 : 0 <= orbitSpeed p * 50 * k) by nra.
  assert (H2 : 0 <= 2 * PI * sf) by nra.
  replace (orbitSpeed p * 50 * k / 360 * (2 * PI) * sf)
    with ((orbitSpeed p * 50 * k) * (2 * PI * sf) / 360) by lra.
  apply Rle_mult_inv_pos; [nra | lra].
Qed.

(** X3: progress only accumulates.  For a body with a base rate that is not
    negative, through any run whose clock never goes back and whose speed
    factors are not negative, the entry of the body never decreases. *)
Theorem progress_never_decreases planets inputs (st : State) (p : PlanetData) :
  NoDup (name <$> planets) -> p ∈ planets -> isSun p = false ->
  0 <= orbitSpeed p -> 0 < distanceFromSun p ->
  Forall (fun d => 0 <= fst d /\ 0 <= snd d) (deltaTimes (lastElapsedTime st) inputs) ->
  orZero (entries (planetOrbitProgress st) !! name p)
  <= orZero (entries (planetOrbitProgress (run planets inputs st)) !! name p).
Proof.
  intros Hnd Hin Hs Hv Hd. revert st.
  induction inputs as [|[t sf] inputs IH]; intros st Hall; [simpl; lra|].
  simpl in Hall. apply Forall_cons in Hall as [[Hdt Hsf] Hall]. simpl in Hdt, Hsf.
  change (run planets ((t, sf) :: inputs) st) with (run planets inputs (frame planets t sf st)).
  eapply Rle_trans; [|apply IH; exact Hall].
  simpl. rewrite (updater_planet_entry _ _ _ _ _ p Hnd Hin Hs), orZero_Some.
  pose proof (orbitSpeedRadians_nonneg p sf Hv Hd Hsf). nra.
Qed.

Lemma progress_never_decreases_witness :
  orZero (entries (planetOrbitProgress (startState scenarioA)) !! "Earth"%string)
  <= orZero (entries (planetOrbitProgress
                        (run scenarioA [(1, 1); (1, 5); (3, 0)] (startState scenarioA)))
               !! "Earth"%string).
Proof.
  apply (progress_never_decreases scenarioA [(1, 1); (1, 5); (3, 0)] (startState scenarioA) earth).
  - exact scenarioA_names.
  - exact earth_in_scenarioA.
  - reflexivity.
  - simpl. lra.
  - unfold distanceFromSun. simpl. lra.
  - simpl. repeat constructor; simpl; lra.
Defined.

End OrbitExtras.

(** ** The speed controls *)

(** Decides the nearness tests [|a - b| < e] in the goal from the linear
    facts at hand. *)
Ltac near_decide :=
  repeat match goal with
  | |- context [bool_decide (Rabs (?a - ?b) < ?e)] =>
      first
        [ rewrite (bool_decide_eq_true_2 (Rabs (a - b) < e)) by (apply Rabs_def1; lra)
        | rewrite (bool_decide_eq_false_2 (Rabs (a - b) < e))
            by (let Hn := fresh "Hn" in intros Hn; apply Rabs_def2 in Hn; lra) ]
  end.

Module SpeedExtras.
Import SpeedControl Samples.

Section Cycle.
Context {Store : Type} `{SpeedControlContextType Store}.
Hypothesis speedFactor_set : forall (v : R) (store : Store),
  speedFactor (setSpeedFactor v store) = v.
Variable state : CameraState.
Hypothesis enabled_state : isDisabled state = false.

Lemma cycle_from_near (store : Store) (preset next : R) :
  (preset, next) ∈ [(0, 1); (1, 2); (2, 5); (5, 10); (10, 0)] ->
  Rabs (speedFactor store - preset) < 0.1 ->
  speedFactor (handleCycleSpeed state store) = next.
Proof.
  intros Hin Hnear. apply Rabs_def2 in Hnear as [Hlo Hhi].
  unfold handleCycleSpeed. rewrite enabled_state. simpl negb. cbv iota.
  rewrite speedFactor_set. unfold findIndex, SPEED_PRESETS, findIndexFrom.
  repeat (apply elem_of_cons in Hin as [Hin | Hin];
          [injection Hin as -> ->; near_decide; reflexivity |]).
  by apply elem_of_nil in Hin.
Qed.

Lemma cycle_from_far (store : Store) :
  (forall preset, preset ∈ SPEED_PRESETS -> ~ Rabs (speedFactor store - preset) < 0.1) ->
  speedFactor (handleCycleSpeed state store) = 0.
Proof.
  intros Hfar. unfold handleCycleSpeed. rewrite enabled_state. simpl negb. cbv iota.
  rewrite speedFactor_set. unfold findIndex, findIndexFrom.
  assert (Hf : forall preset, preset ∈ SPEED_PRESETS ->
                 bool_decide (Rabs (speedFactor store - preset) < 0.1) = false).
  { intros preset Hin. apply bool_decide_eq_false_2, Hfar, Hin. }
  unfold SPEED_PRESETS in *.
  rewrite (Hf 0), (Hf 1), (Hf 2), (Hf 5), (Hf 10); [reflexivity | set_solver ..].
Qed.

Lemma cycle_exact (store : Store) (preset next : R) :
  (preset, next) ∈ [(0, 1); (1, 2); (2, 5); (5, 10); (10, 0)] ->
  speedFactor store = preset ->
  speedFactor (handleCycleSpeed state store) = next.
Proof.
  intros Hin Heq. apply (cycle_from_near store preset next Hin).
  rewrite Heq. replace (preset - preset) with 0 by lra. rewrite Rabs_R0. lra.
Qed.

Lemma five_presses (store : Store) (a b c d e : R) :
  speedFactor store = a ->
  (a, b) ∈ [(0, 1); (1, 2); (2, 5); (5, 10); (10, 0)] ->
  (b, c) ∈ [(0, 1); (1, 2); (2, 5); (5, 10); (10, 0)] ->
  (c, d) ∈ [(0, 1); (1, 2); (2, 5); (5, 10); (10, 0)] ->
  (d, e) ∈ [(0, 1); (1, 2); (2, 5); (5, 10); (10, 0)] ->
  (e, a) ∈ [(0, 1); (1, 2); (2, 5); (5, 10); (10, 0)] ->
  speedFactor (Nat.iter 5 (handleCycleSpeed state) store) = a.
Proof.
  intros H0 Hab Hbc Hcd Hde Hea.
  change (Nat.iter 5 (handleCycleSpeed state) store)
    with (handleCycleSpeed state (handleCycleSpeed state (handleCycleSpeed state
            (handleCycleSpeed state (handleCycleSpeed state store))))).
  apply (cycle_exact _ e a Hea), (cycle_exact _ d e Hde), (cycle_exact _ c d Hcd),
    (cycle_exact _ b c Hbc), (cycle_exact _ a b Hab), H0.
Qed.

(** X11: outside ZOOMING_IN and DETAIL_VIEW the cycle action walks the presets
    0, 1, 2, 5, 10 in order and wraps around: from a speed within 0.1 of a
    preset it sets the next preset, from any other speed it sets 0; the new
    speed is always a preset, and five presses from a preset come back to it. *)
Theorem cycle_walks_presets (store : Store) :
  (forall preset next : R,
     (preset, next) ∈ [(0, 1); (1, 2); (2, 5); (5, 10); (10, 0)] ->
     Rabs (speedFactor store - preset) < 0.1 ->
     speedFactor (handleCycleSpeed state store) = next)
  /\ ((forall preset, preset ∈ SPEED_PRESETS -> ~ Rabs (speedFactor store - preset) < 0.1) ->
      speedFactor (handleCycleSpeed state store) = 0)
  /\ speedFactor (handleCycleSpeed state store) ∈ SPEED_PRESETS
  /\ (speedFactor store ∈ SPEED_PRESETS ->
      speedFactor (Nat.iter 5 (handleCycleSpeed state) store) = speedFactor store).
Proof.
  split; [intros preset next; apply cycle_from_near|].
  split; [apply cycle_from_far|].
  split.
  - destruct (decide (Rabs (speedFactor store - 0) < 0.1)) as [H0 | H0];
      [rewrite (cycle_from_near store 0 1) by (set_solver || exact H0);
       unfold SPEED_PRESETS; set_solver|].
    destruct (decide (Rabs (speedFactor store - 1) < 0.1)) as [H1 | H1];
      [rewrite (cycle_from_near store 1 2) by (set_solver || exact H1);
       unfold SPEED_PRESETS; set_solver|].
    destruct (decide (Rabs (speedFactor store - 2) < 0.1)) as [H2 | H2];
      [rewrite (cycle_from_near store 2 5) by (set_solver || exact H2);
       unfold SPEED_PRESETS; set_solver|].
    destruct (decide (Rabs (speedFactor store - 5) < 0.1)) as [H5 | H5];
      [rewrite (cycle_from_near store 5 10) by (set_solver || exact H5);
       unfold SPEED_PRESETS; set_solver|].
    destruct (decide (Rabs (speedFactor store - 10) < 0.1)) as [H10 | H10];
      [rewrite (cycle_from_near store 10 0) by (set_solver || exact H10);
       unfold SPEED_PRESETS; set_solver|].
    rewrite cycle_from_far; [unfold SPEED_PRESETS; set_solver|].
    intros preset Hin. unfold SPEED_PRESETS in Hin.
    repeat (apply elem_of_cons in Hin as [-> | Hin]; [assumption|]).
    by apply elem_of_nil in Hin.
  - intros Hin. unfold SPEED_PRESETS in Hin.
    apply elem_of_cons in Hin as [Hin | Hin];
      [rewrite Hin; apply (five_presses store 0 1 2 5 10 Hin); set_solver|].
    apply elem_of_cons in Hin as [Hin | Hin];
      [rewrite Hin; apply (five_presses store 1 2 5 10 0 Hin); set_solver|].
    apply elem_of_cons in Hin as [Hin | Hin];
      [rewrite Hin; apply (five_presses store 2 5 10 0 1 Hin); set_solver|].
    apply elem_of_cons in Hin as [Hin | Hin];
      [rewrite Hin; apply (five_presses store 5 10 0 1 2 Hin); set_solver|].
    apply elem_of_cons in Hin as [Hin | Hin];
      [rewrite Hin; apply (five_presses store 10 0 1 2 5 Hin); set_solver|].
    by apply elem_of_nil in Hin.
Qed.

End Cycle.

Lemma SpeedStore_get_set (v : R) (store : SpeedStore) :
  speedFactor (setSpeedFactor v store) = v.
Proof. reflexivity. Qed.

Lemma cycle_walks_presets_witness :
  speedFactor (handleCycleSpeed FREE {| current := 10; userValue := 10 |}) = 0.
Proof.
  apply (proj1 (cycle_walks_presets SpeedStore_get_set FREE eq_refl
                  {| current := 10; userValue := 10 |}) 10 0).
  - set_solver.
  - simpl. replace (10 - 10) with 0 by lra. rewrite Rabs_R0. lra.
Defined.

End SpeedExtras.

(** ** The keyboard *)

Module KeyboardExtras.
Import CameraController SpeedControl KeyboardHandler SceneLoop Reference Samples.

Lemma findIndexFrom_unique {A : Type} (key : A -> Z) (l : list A) :
  NoDup (key <$> l) ->
  forall (i : nat) (p : A) (k : Z),
    l !! i = Some p ->
    findIndexFrom (fun q => bool_decide (Some (key q) = Some (key p))) l k
    = (k + Z.of_nat i)%Z.
Proof.
  induction l as [|q l IH]; intros Hnd i p k Hi; [by rewrite lookup_nil in Hi|].
  rewrite fmap_cons in Hnd. apply NoDup_cons in Hnd as [Hq Hnd].
  destruct i as [|i]; simpl in Hi.
  - injection Hi as ->. simpl. rewrite bool_decide_eq_true_2 by reflexivity. lia.
  - simpl. rewrite bool_decide_eq_false_2.
    + rewrite (IH Hnd i p (k + 1)%Z Hi). lia.
    + intros E. injection E as E. apply Hq. rewrite E.
      apply list_elem_of_fmap_2. by apply list_elem_of_lookup_2 in Hi.
Qed.

Section Keys.
Context {Store : Type} `{SpeedControlContextType Store}.
Variable planetsData : list PlanetData.
Variable moonId : MoonSelection -> option Z.
Hypothesis speedFactor_set : forall (v : R) (store : Store),
  speedFactor (setSpeedFactor v store) = v.

Local Abbreviation press code s := (fst (handleKeyDown planetsData moonId false code s)).

(** *** Speed keys *)

Lemma speed_up_near (s : Scene Store) (preset next : R) :
  (preset, next) ∈ [(0, 0.5); (0.5, 1); (1, 2); (2, 5); (5, 5)] ->
  Rabs (speedFactor (speed s) - preset) < 0.1 ->
  speedFactor (speed (cycleSpeedUp s)) = next.
Proof.
  intros Hin Hnear. apply Rabs_def2 in Hnear as [Hlo Hhi].
  unfold cycleSpeedUp, setSpeed, currentPresetIndex. cbn [speed].
  rewrite speedFactor_set. unfold findIndex, speedPresets, findIndexFrom.
  repeat (apply elem_of_cons in Hin as [Hin | Hin];
          [injection Hin as -> ->; near_decide; reflexivity |]).
  by apply elem_of_nil in Hin.
Qed.

Lemma speed_down_near (s : Scene Store) (preset next : R) :
  (preset, next) ∈ [(0, 0); (0.5, 0); (1, 0.5); (2, 1); (5, 2)] ->
  Rabs (speedFactor (speed s) - preset) < 0.1 ->
  speedFactor (speed (cycleSpeedDown s)) = next.
Proof.
  intros Hin Hnear. apply Rabs_def2 in Hnear as [Hlo Hhi].
  unfold cycleSpeedDown, setSpeed, currentPresetIndex. cbn [speed].
  rewrite speedFactor_set. unfold findIndex, speedPresets, findIndexFrom.
  repeat (apply elem_of_cons in Hin as [Hin | Hin];
          [injection Hin as -> ->; near_decide; reflexivity |]).
  by apply elem_of_nil in Hin.
Qed.

Lemma speed_far (s : Scene Store) :
  (forall preset, preset ∈ speedPresets -> ~ Rabs (speedFactor (speed s) - preset) < 0.1) ->
  speedFactor (speed (cycleSpeedUp s)) = 0 /\ speedFactor (speed (cycleSpeedDown s)) = 0.
Proof.
  intros Hfar.
  assert (Hf : forall preset, preset ∈ speedPresets ->
                 bool_decide (Rabs (speedFactor (speed s) - preset) < 0.1) = false).
  { intros preset Hin. apply bool_decide_eq_false_2, Hfar, Hin. }
  unfold cycleSpeedUp, cycleSpeedDown, setSpeed, currentPresetIndex. cbn [speed].
  rewrite !speedFactor_set. unfold findIndex, findIndexFrom.
  unfold speedPresets in *.
  rewrite (Hf 0), (Hf 0.5), (Hf 1), (Hf 2), (Hf 5); [by split | set_solver ..].
Qed.

(** X12: the arrow keys step the speed through 0, 0.5, 1, 2, 5 without wrapping:
    up stops at 5, down stops at 0; from a speed that is within 0.1 of none of
    these (such as the 10 of the on-screen control) either key sets 0.  They
    do so in every camera state, and change nothing but the speed store. *)
Theorem arrow_keys_step_speed (s : Scene Store) :
  (forall preset next : R,
     (preset, next) ∈ [(0, 0.5); (0.5, 1); (1, 2); (2, 5); (5, 5)] ->
     Rabs (speedFactor (speed s) - preset) < 0.1 ->
     speedFactor (speed (press "ArrowUp"%string s)) = next)
  /\ (forall preset next : R,
        (preset, next) ∈ [(0, 0); (0.5, 0); (1, 0.5); (2, 1); (5, 2)] ->
        Rabs (speedFactor (speed s) - preset) < 0.1 ->
        speedFactor (speed (press "ArrowDown"%string s)) = next)
  /\ ((forall preset, preset ∈ speedPresets ->
         ~ Rabs (speedFactor (speed s) - preset) < 0.1) ->
      speedFactor (speed (press "ArrowUp"%string s)) = 0
      /\ speedFactor (speed (press "ArrowDown"%string s)) = 0)
  /\ (selectedPlanet (press "ArrowUp"%string s) = selectedPlanet s
      /\ rig (press "ArrowUp"%string s) = rig s
      /\ selectedPlanet (press "ArrowDown"%string s) = selectedPlanet s
      /\ rig (press "ArrowDown"%string s) = rig s).
Proof.
  change (press "ArrowUp"%string s) with (cycleSpeedUp s).
  change (press "ArrowDown"%string s) with (cycleSpeedDown s).
  split; [intros preset next; apply speed_up_near|].
  split; [intros preset next; apply speed_down_near|].
  split; [apply speed_far | by repeat split].
Qed.

(** X13: Space pauses and resumes, in every camera state: it sets the speed to 1
    when it is 0 and to 0 otherwise.  Pausing and resuming therefore ends at
    speed 1, whatever the speed was before the pause. *)
Theorem space_pauses_and_resumes (s : Scene Store) :
  speedFactor (speed s) <> 0 ->
  speedFactor (speed (press "Space"%string s)) = 0
  /\ speedFactor (speed (press "Space"%string (press "Space"%string s))) = 1
  /\ selectedPlanet (press "Space"%string s) = selectedPlanet s
  /\ rig (press "Space"%string s) = rig s.
Proof.
  intros Hne.
  assert (Hp : forall s0 : Scene Store,
            press "Space"%string s0
            = setSpeed (if bool_decide (speedFactor (speed s0) = 0) then 1 else 0) s0)
    by reflexivity.
  assert (H1 : speedFactor (speed (press "Space"%string s)) = 0).
  { rewrite Hp. unfold setSpeed. cbn [speed]. rewrite speedFactor_set.
    by rewrite bool_decide_eq_false_2. }
  split; [exact H1|]. split; [|by rewrite Hp].
  rewrite (Hp (press "Space"%string s)). unfold setSpeed at 1. cbn [speed].
  rewrite speedFactor_set, H1. by rewrite bool_decide_eq_true_2.
Qed.

(** *** Arrow navigation *)

Lemma selectedIndex_planet (i : nat) (p : PlanetData) :
  NoDup (id <$> planetsData) -> planetsData !! i = Some p ->
  selectedIndex planetsData moonId (SelPlanet p) = Z.of_nat i.
Proof.
  intros Hnd Hi. unfold selectedIndex, findIndex. simpl.
  rewrite (findIndexFrom_unique id planetsData Hnd i p 0 Hi). lia.
Qed.

Lemma selectPlanetByIndex_at (i : nat) (p : PlanetData) (s : Scene Store) :
  planetsData !! i = Some p ->
  selectPlanetByIndex planetsData (Z.of_nat i) s = selectPlanet p s.
Proof.
  intros Hi. unfold selectPlanetByIndex.
  pose proof (lookup_lt_Some _ _ _ Hi) as Hlt.
  rewrite !bool_decide_eq_true_2 by lia. simpl.
  by rewrite Nat2Z.id, Hi.
Qed.

Lemma arrowRight_at (i : nat) (p q : PlanetData) (s : Scene Store) :
  NoDup (id <$> planetsData) -> planetsData !! i = Some p ->
  selectedPlanet s = Some (SelPlanet p) ->
  planetsData !! (if decide (i + 1 < length planetsData)%nat then (i + 1)%nat else 0%nat)
  = Some q ->
  arrowRight planetsData moonId s = selectPlanet q s.
Proof.
  intros Hnd Hi Hsel Hq. unfold arrowRight. rewrite Hsel.
  rewrite (selectedIndex_planet i p Hnd Hi). cbv zeta.
  destruct (decide (i + 1 < length planetsData)%nat) as [Hlt | Hge].
  - rewrite bool_decide_eq_true_2 by lia.
    replace (Z.of_nat i + 1)%Z with (Z.of_nat (i + 1)) by lia.
    by apply selectPlanetByIndex_at.
  - rewrite bool_decide_eq_false_2 by lia.
    by apply (selectPlanetByIndex_at 0).
Qed.

Lemma arrowLeft_at (i : nat) (p q : PlanetData) (s : Scene Store) :
  NoDup (id <$> planetsData) -> planetsData !! i = Some p ->
  selectedPlanet s = Some (SelPlanet p) ->
  planetsData !! (if decide (0 < i)%nat then (i - 1)%nat else (length planetsData - 1)%nat)
  = Some q ->
  arrowLeft planetsData moonId s = selectPlanet q s.
Proof.
  intros Hnd Hi Hsel Hq. unfold arrowLeft. rewrite Hsel.
  rewrite (selectedIndex_planet i p Hnd Hi). cbv zeta.
  pose proof (lookup_lt_Some _ _ _ Hi) as Hlen.
  destruct (decide (0 < i)%nat) as [Hlt | Hge].
  - rewrite bool_decide_eq_true_2 by lia.
    replace (Z.of_nat i - 1)%Z with (Z.of_nat (i - 1)) by lia.
    by apply selectPlanetByIndex_at.
  - rewrite bool_decide_eq_false_2 by lia.
    replace (Z.of_nat (length planetsData) - 1)%Z
      with (Z.of_nat (length planetsData - 1)) by lia.
    by apply selectPlanetByIndex_at.
Qed.

(** X14: the left and right arrows walk the catalogue and wrap around.  With
    distinct ids and the body at index [i] selected, ArrowRight selects the
    body at [i + 1] (index 0 after the last), ArrowLeft the body at [i - 1]
    (the last before index 0); each starts a zoom, and either key followed by
    the other selects the body one started from. *)
Theorem arrows_walk_and_wrap (s : Scene Store) (i : nat) (p : PlanetData) :
  NoDup (id <$> planetsData) -> planetsData !! i = Some p ->
  selectedPlanet s = Some (SelPlanet p) ->
  let n := length planetsData in
  let right := press "ArrowRight"%string s in
  let left := press "ArrowLeft"%string s in
  selectedPlanet right
  = SelPlanet <$> planetsData !! (if decide (i + 1 < n)%nat then (i + 1)%nat else 0%nat)
  /\ selectedPlanet left
     = SelPlanet <$> planetsData !! (if decide (0 < i)%nat then (i - 1)%nat else (n - 1)%nat)
  /\ cameraState (rig right) = ZOOMING_IN /\ cameraState (rig left) = ZOOMING_IN
  /\ selectedPlanet (press "ArrowLeft"%string right) = Some (SelPlanet p)
  /\ selectedPlanet (press "ArrowRight"%string left) = Some (SelPlanet p).
Proof.
  intros Hnd Hi Hsel n right left.
  pose proof (lookup_lt_Some _ _ _ Hi) as Hlen. fold n in Hlen.
  set (j := if decide (i + 1 < n)%nat then (i + 1)%nat else 0%nat).
  set (k := if decide (0 < i)%nat then (i - 1)%nat else (n - 1)%nat).
  destruct (lookup_lt_is_Some_2 planetsData j) as [q Hq];
    [subst j; fold n; destruct (decide (i + 1 < n)%nat); lia|].
  destruct (lookup_lt_is_Some_2 planetsData k) as [q' Hq'];
    [subst k; fold n; destruct (decide (0 < i)%nat); lia|].
  assert (Hr : right = selectPlanet q s) by (by apply (arrowRight_at i p q)).
  assert (Hl : left = selectPlanet q' s) by (by apply (arrowLeft_at i p q')).
  rewrite Hq, Hq', Hr, Hl.
  split; [reflexivity|]. split; [reflexivity|].
  split; [reflexivity|]. split; [reflexivity|].
  split.
  - change (press "ArrowLeft"%string (selectPlanet q s))
      with (arrowLeft planetsData moonId (selectPlanet q s)).
    rewrite (arrowLeft_at j q p (selectPlanet q s) Hnd Hq eq_refl); [reflexivity|].
    rewrite <- Hi. f_equal. subst j. fold n. clear Hq. subst n.
    repeat case_decide; lia.
  - change (press "ArrowRight"%string (selectPlanet q' s))
      with (arrowRight planetsData moonId (selectPlanet q' s)).
    rewrite (arrowRight_at k q' p (selectPlanet q' s) Hnd Hq' eq_refl); [reflexivity|].
    rewrite <- Hi. f_equal. subst k. fold n. clear Hq'. subst n.
    repeat case_decide; lia.
Qed.

End Keys.

Lemma arrow_keys_step_speed_witness :
  speedFactor
    (speed (fst (handleKeyDown scenarioA (fun _ => None) false "ArrowUp"
                   (sceneOf None registryA (rigAt ZOOMING_IN CAMERA.HOME_POSITION Vector3.zero)))))
  = 2.
Proof.
  apply (proj1 (arrow_keys_step_speed scenarioA (fun _ => None) SpeedExtras.SpeedStore_get_set
                  (sceneOf None registryA
                     (rigAt ZOOMING_IN CAMERA.HOME_POSITION Vector3.zero))) 1 2).
  - set_solver.
  - simpl. replace (1 - 1) with 0 by lra. rewrite Rabs_R0. lra.
Defined.

Lemma space_pauses_and_resumes_witness :
  speedFactor
    (speed (fst (handleKeyDown scenarioA (fun _ => None) false "Space"
                   (fst (handleKeyDown scenarioA (fun _ => None) false "Space"
                           {| selectedPlanet := None; planetPositions := registryA;
                              rig := rigAt FREE CAMERA.HOME_POSITION Vector3.zero;
                              controlsMounted := true;
                              speed := {| current := 5; userValue := 5 |} |})))))
  = 1.
Proof.
  apply (space_pauses_and_resumes scenarioA (fun _ => None) SpeedExtras.SpeedStore_get_set
           {| selectedPlanet := None; planetPositions := registryA;
              rig := rigAt FREE CAMERA.HOME_POSITION Vector3.zero;
              controlsMounted := true;
              speed := {| current := 5; userValue := 5 |} |}).
  simpl. lra.
Defined.

Lemma arrows_walk_and_wrap_witness :
  selectedPlanet
    (fst (handleKeyDown scenarioA (fun _ => None) false "ArrowRight"
            (sceneOf (Some (SelPlanet earth)) registryA
               (rigAt FREE CAMERA.HOME_POSITION Vector3.zero))))
  = Some (SelPlanet sun).
Proof.
  apply (arrows_walk_and_wrap scenarioA (fun _ => None)
           (sceneOf (Some (SelPlanet earth)) registryA
              (rigAt FREE CAMERA.HOME_POSITION Vector3.zero)) 1 earth).
  - apply (bool_decide_unpack _). reflexivity.
  - reflexivity.
  - reflexivity.
Defined.

End KeyboardExtras.

(** ** The planet menu and the touch gestures *)

Module MenuExtras.
Import CameraController SceneLoop Reference Samples.

Section Menu.
Context {Store : Type} `{SpeedControlContextType Store}.
Variable planets : list PlanetData.
Variable moonId : MoonSelection -> option Z.

(** X15: choosing a name in the planet menu either changes nothing or selects
    the first body of that name and starts a zoom, and choosing the same name
    again changes nothing more: the speed is not overridden a second time and
    the zoom is not restarted. *)
Theorem menu_select_idempotent (planetName : string) (s : Scene Store) :
  let chosen := PlanetMenu.handleSelect planets moonId planetName s in
  PlanetMenu.handleSelect planets moonId planetName chosen = chosen
  /\ (chosen = s
      \/ exists selected, selected ∈ planets /\ name selected = planetName
                          /\ chosen = selectPlanet selected s).
Proof.
  intros chosen. subst chosen.
  destruct (List.find (fun planet => bool_decide (name planet = planetName)) planets)
    as [selected|] eqn:Hfind.
  - assert (Hf : forall s0 : Scene Store,
              PlanetMenu.handleSelect planets moonId planetName s0
              = if bool_decide (selectedPlanet s0 ≫= selectionId moonId = Some (id selected))
                then s0 else selectPlanet selected s0).
    { intros s0. unfold PlanetMenu.handleSelect. by rewrite Hfind. }
    apply List.find_some in Hfind as [Hin Hname].
    apply bool_decide_eq_true in Hname. apply list_elem_of_In in Hin.
    rewrite (Hf s).
    destruct (bool_decide (selectedPlanet s ≫= selectionId moonId = Some (id selected)))
      eqn:Hid.
    + split; [|by left]. by rewrite Hf, Hid.
    + split; [|right; by exists selected].
      rewrite Hf. by rewrite bool_decide_eq_true_2.
  - assert (Hf : forall s0 : Scene Store,
              PlanetMenu.handleSelect planets moonId planetName s0 = s0).
    { intros s0. unfold PlanetMenu.handleSelect. by rewrite Hfind. }
    rewrite !Hf. split; [reflexivity | by left].
Qed.

(** X16: what a touch gesture can do.  It leaves the scene as it is, or (a tap
    in DETAIL_VIEW) goes home, or (a sideways swipe in FREE) selects a body of
    the catalogue that is not the star; with nothing selected, a swipe to the
    right never selects anything. *)
Theorem gesture_effects (deltaX deltaY deltaTime : R) (s : Scene Store) :
  let s' := MobileGestureHandler.handleTouchEnd planets moonId deltaX deltaY deltaTime s in
  (s' = s
   \/ (cameraState (rig s) = DETAIL_VIEW /\ s' = goHome s)
   \/ (cameraState (rig s) = FREE
       /\ exists p, p ∈ planets /\ isSun p = false /\ s' = selectPlanet p s))
  /\ (selectedPlanet s = None -> 0 < deltaX -> cameraState (rig s) = FREE -> s' = s).
Proof.
  intros s'. subst s'. unfold MobileGestureHandler.handleTouchEnd. cbv zeta.
  set (others := filter (fun p => isSun p = false) planets).
  assert (Hother : forall i p, others !! i = Some p ->
            exists q, q ∈ planets /\ isSun q = false /\ p = q).
  { intros i p Hi. apply list_elem_of_lookup_2 in Hi.
    apply list_elem_of_filter in Hi as [Hs Hin]. by exists p. }
  split.
  - destruct (bool_decide (sqrt _ < 10) && bool_decide (deltaTime < 300)).
    { case_bool_decide as Hd; [right; left; by split | by left]. }
    destruct (bool_decide (50 < sqrt _) && bool_decide (deltaTime < 500)); [|by left].
    destruct (bool_decide (cameraState (rig s) = FREE)) eqn:Hfree; [|by left].
    apply bool_decide_eq_true in Hfree. simpl.
    destruct (bool_decide (Rabs deltaY < Rabs deltaX)); [|by left].
    destruct (bool_decide (0 < deltaX) && bool_decide (0 < _)%Z).
    { destruct (others !! _) as [p|] eqn:Hp; [|by left].
      destruct (Hother _ _ Hp) as (q & Hin & Hs & ->).
      right; right. split; [exact Hfree | by exists q]. }
    destruct (bool_decide (deltaX < 0) && bool_decide (_ < _)%Z); [|by left].
    destruct (others !! _) as [p|] eqn:Hp; [|by left].
    destruct (Hother _ _ Hp) as (q & Hin & Hs & ->).
    right; right. split; [exact Hfree | by exists q].
  - intros Hsel Hdx Hfree. rewrite Hsel, Hfree.
    destruct (bool_decide (sqrt _ < 10) && bool_decide (deltaTime < 300));
      [reflexivity|].
    destruct (bool_decide (50 < sqrt _) && bool_decide (deltaTime < 500)); [|reflexivity].
    simpl. destruct (bool_decide (Rabs deltaY < Rabs deltaX)); [|reflexivity].
    rewrite ?(bool_decide_eq_false_2 (0 < -1)%Z) by lia. rewrite ?andb_false_r.
    rewrite (bool_decide_eq_false_2 (deltaX < 0)) by lra. reflexivity.
Qed.

End Menu.

Lemma gesture_effects_witness :
  MobileGestureHandler.handleTouchEnd scenarioA (fun _ => None) 80 0 200
    (sceneOf None registryA (rigAt FREE CAMERA.HOME_POSITION Vector3.zero))
  = sceneOf None registryA (rigAt FREE CAMERA.HOME_POSITION Vector3.zero).
Proof.
  apply (gesture_effects scenarioA (fun _ => None) 80 0 200
           (sceneOf None registryA (rigAt FREE CAMERA.HOME_POSITION Vector3.zero))).
  - reflexivity.
  - lra.
  - reflexivity.
Defined.

End MenuExtras.

(** ** Moons *)

Module MoonExtras.
Import CameraController SceneLoop Reference Samples Vector3More.

Lemma orbit_circle (angle radius : R) :
  Vector3.length (Vector3.mk (cos angle * radius) 0 (sin angle * radius)) = Rabs radius.
Proof.
  unfold Vector3.length. simpl.
  pose proof (sin2_cos2 angle) as Hsc. unfold Rsqr in Hsc.
  replace (cos angle * radius * (cos angle * radius) + 0 * 0
           + sin angle * radius * (sin angle * radius))
    with (Rsqr radius * (sin angle * sin angle + cos angle * cos angle))
    by (unfold Rsqr; ring).
  rewrite Hsc, Rmult_1_r. apply sqrt_Rsqr_abs.
Qed.

Lemma frames_mesh (moon : Moons.MoonData) (ticks : list (R * R)) (st : Moons.MoonState) :
  is_Some (Moons.mesh st) -> ticks <> [] ->
  Moons.mesh (Moons.frames moon ticks st)
  = Some (Moons.localPosition moon (Moons.orbit (Moons.frames moon ticks st))).
Proof.
  revert st. induction ticks as [|tick ticks IH]; intros st [m Hm] Hne; [done|].
  unfold Moons.frames. simpl. fold (Moons.frames moon ticks (Moons.frame moon tick.1 tick.2 st)).
  assert (Hstep : Moons.mesh (Moons.frame moon tick.1 tick.2 st)
                  = Some (Moons.localPosition moon
                            (Moons.orbit (Moons.frame moon tick.1 tick.2 st)))).
  { unfold Moons.frame. rewrite Hm. reflexivity. }
  destruct ticks as [|tick' ticks]; [exact Hstep|].
  apply IH; [by rewrite Hstep | discriminate].
Qed.

Section Click.
Context {Store : Type} `{SpeedControlContextType Store}.

(** X17: where a clicked moon sends the camera.  Once its mesh has been placed
    by a frame, the position stored in the selection is the [planetPosition]
    the component was given plus the moon's offset, which lies in that
    position's horizontal plane at distance [|orbitRadius|] (0.5 when the
    moon has none) from it; the camera controller resolves the selection to
    that stored point whatever the registry holds.  As Planets.js gives
    [planetPosition = [0, 0, 0]], the stored point is at that distance from
    the origin. *)
Theorem moon_click_target (planetPosition : Vec3) (planetName : string)
    (moon : Moons.MoonData) (ticks : list (R * R)) (st : Moons.MoonState)
    (s : Scene Store) (registry : gmap string Vec3) :
  is_Some (Moons.mesh st) -> ticks <> [] ->
  let s' := Moons.handleMoonClick planetPosition planetName moon
              (Moons.frames moon ticks st) s in
  exists stored : Vec3,
    getPlanetPosition (selectedPlanet s') registry = Some stored
    /\ Vector3.distanceTo stored planetPosition
       = Rabs (orDefault (Moons.orbitRadius moon) 0.5)
    /\ Vector3.y stored = Vector3.y planetPosition
    /\ (planetPosition = Moons.planetPositionProp ->
        Vector3.length stored = Rabs (orDefault (Moons.orbitRadius moon) 0.5))
    /\ cameraState (rig s') = ZOOMING_IN.
Proof.
  intros Hmesh Hne s'.
  pose proof (frames_mesh moon ticks st Hmesh Hne) as Hm.
  set (local := Moons.localPosition moon (Moons.orbit (Moons.frames moon ticks st))) in *.
  exists (Vector3.add planetPosition local).
  assert (Hlen : Vector3.length local = Rabs (orDefault (Moons.orbitRadius moon) 0.5))
    by apply orbit_circle.
  split; [|split; [|split; [|split]]].
  - subst s'. unfold Moons.handleMoonClick, Moons.moonWorldPosition. rewrite Hm. reflexivity.
  - by rewrite distanceTo_add.
  - simpl. lra.
  - intros ->. rewrite <- Hlen. unfold Moons.planetPositionProp, Vector3.length. simpl.
    f_equal. ring.
  - reflexivity.
Qed.

End Click.

Lemma moon_click_target_witness :
  exists stored : Vec3,
    getPlanetPosition
      (selectedPlanet
         (Moons.handleMoonClick Vector3.zero "Earth"
            {| Moons.name := "Moon"; Moons.radius := 0.27;
               Moons.orbitRadius := Some 2; Moons.orbitSpeed := None |}
            (Moons.frames
               {| Moons.name := "Moon"; Moons.radius := 0.27;
                  Moons.orbitRadius := Some 2; Moons.orbitSpeed := None |}
               [(0.016, 1)] {| Moons.orbit := 0; Moons.mesh := Some Vector3.zero |})
            (sceneOf None registryA (rigAt FREE CAMERA.HOME_POSITION Vector3.zero))))
      registryA = Some stored
    /\ Vector3.distanceTo stored Vector3.zero = Rabs (orDefault (Some 2) 0.5).
Proof.
  destruct (moon_click_target Vector3.zero "Earth"
              {| Moons.name := "Moon"; Moons.radius := 0.27;
                 Moons.orbitRadius := Some 2; Moons.orbitSpeed := None |}
              [(0.016, 1)] {| Moons.orbit := 0; Moons.mesh := Some Vector3.zero |}
              (sceneOf None registryA (rigAt FREE CAMERA.HOME_POSITION Vector3.zero))
              registryA) as (stored & Hres & Hdist & _).
  - by eexists.
  - discriminate.
  - exists stored. by split.
Defined.

End MoonExtras.

(** ** The display of the speed control *)

Module DisplayExtras.
Import SpeedControlDisplay.

(** X18: icon and status agree.  While the control is enabled, the pause icon
    is shown exactly when the status reads Paused, which is exactly at speed
    0, and the rocket exactly when the speed is above 2, where the status is
    Very Fast or Ludicrous Speed; while it is disabled the icon is the lock
    arrow at every speed. *)
Theorem icon_matches_status (speedFactor : R) :
  (speedIcon false speedFactor = "⏸"%string <-> speedStatus speedFactor = "Paused"%string)
  /\ (speedStatus speedFactor = "Paused"%string <-> speedFactor = 0)
  /\ (speedIcon false speedFactor = "🚀"%string <-> 2 < speedFactor)
  /\ (2 < speedFactor <->
      speedStatus speedFactor = "Very Fast"%string
      \/ speedStatus speedFactor = "Ludicrous Speed"%string)
  /\ speedIcon true speedFactor = "⟳"%string.
Proof.
  unfold speedIcon, speedStatus.
  repeat case_bool_decide; repeat split; intros; try discriminate; try lra;
    try reflexivity; try (exfalso; lra); auto;
    try match goal with Hd : _ \/ _ |- _ => destruct Hd; discriminate end.
Qed.

Lemma icon_matches_status_witness : speedStatus 0 = "Paused"%string.
Proof. apply (icon_matches_status 0). reflexivity. Defined.

End DisplayExtras.
